(** * A shallow embedding of the DOGE breakout worker, the order service
    and the order audit trail of mky_bot.

    Go [float64] values are modelled by exact rationals [Q]; the one place
    where IEEE semantics matter (a division by the constant [0.0]) is
    modelled by the small extended domain [F] below.  Go [error] results
    are [Result]; run-time panics are [GoOutcome]. *)

From Stdlib Require Import String List Bool ZArith QArith Qround Lia Sorted.
Import ListNotations.
Open Scope string_scope.

(* ------------------------------------------------------------------ *)
(** ** Errors, panics and comparisons *)

Inductive Result (A : Type) : Type :=
| OK : A -> Result A
| Err : string -> Result A.
Arguments OK {A} _.
Arguments Err {A} _.

Inductive GoOutcome (A : Type) : Type :=
| Ret : A -> GoOutcome A
| Panic : string -> GoOutcome A.
Arguments Ret {A} _.
Arguments Panic {A} _.

(** [a < b] on float64 values *)
Definition qlt (a b : Q) : bool := negb (Qle_bool b a).
(** [a <= b] on float64 values *)
Definition qle (a b : Q) : bool := Qle_bool a b.

(* ------------------------------------------------------------------ *)
(** ** models: Candle, Order, OrderStatusEntity, OrderAudit *)

Record Candle := mkCandle {
  Timestamp : Z;
  Open : Q;
  High : Q;
  Low : Q;
  Close : Q;
  Volume : Q
}.

Definition OrderSideTypeBuy : string := "Buy".
Definition OrderSideTypeSell : string := "Sell".

Definition OrderResultProfit : string := "Profit".
Definition OrderResultLoss : string := "Loss".
Definition OrderResultPending : string := "Pending".
Definition OrderResultDone : string := "Done".

Record Order := mkOrder {
  ID : nat;
  OrderID : string;
  Symbol : string;
  Side : string;
  OrderPrice : Q;
  Quantity : Q;
  TakeProfitPrice : option Q;
  StopLossPrice : option Q;
  OrderStatusID : nat;
  Result_ : string;
  PnL : Q;
  PnLPercentage : Q
}.

Definition set_ID (o : Order) (n : nat) : Order :=
  mkOrder n (OrderID o) (Symbol o) (Side o) (OrderPrice o) (Quantity o)
    (TakeProfitPrice o) (StopLossPrice o) (OrderStatusID o) (Result_ o)
    (PnL o) (PnLPercentage o).

Definition set_Result (o : Order) (r : string) : Order :=
  mkOrder (ID o) (OrderID o) (Symbol o) (Side o) (OrderPrice o) (Quantity o)
    (TakeProfitPrice o) (StopLossPrice o) (OrderStatusID o) r
    (PnL o) (PnLPercentage o).

Definition set_OrderStatusID (o : Order) (s : nat) : Order :=
  mkOrder (ID o) (OrderID o) (Symbol o) (Side o) (OrderPrice o) (Quantity o)
    (TakeProfitPrice o) (StopLossPrice o) s (Result_ o)
    (PnL o) (PnLPercentage o).

Definition set_PnL (o : Order) (p pp : Q) : Order :=
  mkOrder (ID o) (OrderID o) (Symbol o) (Side o) (OrderPrice o) (Quantity o)
    (TakeProfitPrice o) (StopLossPrice o) (OrderStatusID o) (Result_ o) p pp.

Record OrderStatusEntity := mkStatus {
  StatusID : nat;
  StatusName : string;
  IsActive : bool
}.

Record OrderAudit := mkAudit {
  AuditOrderID : string;
  FieldName : string;
  OldValue : option string;
  NewValue : option string;
  ChangedBy : string
}.

(** Order.validatePrices (models/order.go) *)
Definition validatePrices (o : Order) : option string :=
  match
    match TakeProfitPrice o with
    | Some tp =>
        if qle tp 0 then Some "invalid data"
        else if String.eqb (Side o) OrderSideTypeBuy && qle tp (OrderPrice o)
        then Some "invalid data"
        else if String.eqb (Side o) OrderSideTypeSell && qle (OrderPrice o) tp
        then Some "invalid data"
        else None
    | None => None
    end
  with
  | Some e => Some e
  | None =>
      match StopLossPrice o with
      | Some sl =>
          if qle sl 0 then Some "invalid data"
          else if String.eqb (Side o) OrderSideTypeBuy && qle (OrderPrice o) sl
          then Some "invalid data"
          else if String.eqb (Side o) OrderSideTypeSell && qle sl (OrderPrice o)
          then Some "invalid data"
          else None
      | None => None
      end
  end.

(** Order.BeforeCreate: the gorm hook run by every [Create] of an Order *)
Definition OrderBeforeCreate (o : Order) : Result Order :=
  if String.eqb (OrderID o) "" || String.eqb (Symbol o) ""
     || qle (OrderPrice o) 0 || qle (Quantity o) 0
  then Err "invalid data"
  else if negb (String.eqb (Side o) OrderSideTypeBuy)
          && negb (String.eqb (Side o) OrderSideTypeSell)
  then Err "invalid data"
  else
    let o' := if negb (String.eqb (Result_ o) OrderResultProfit)
                 && negb (String.eqb (Result_ o) OrderResultLoss)
                 && negb (String.eqb (Result_ o) OrderResultPending)
              then set_Result o OrderResultPending else o in
    match validatePrices o' with
    | Some e => Err e
    | None => OK o'
    end.

(** OrderAudit.BeforeCreate *)
Definition AuditBeforeCreate (a : OrderAudit) : Result OrderAudit :=
  if String.eqb (AuditOrderID a) "" || String.eqb (FieldName a) ""
  then Err "invalid data"
  else if String.eqb (ChangedBy a) ""
  then OK (mkAudit (AuditOrderID a) (FieldName a) (OldValue a) (NewValue a) "system")
  else OK a.

(** Order.CalculatePnL *)
Definition CalculatePnL (o : Order) (currentPrice : Q) : Order :=
  let pnl := if String.eqb (Side o) OrderSideTypeBuy
             then (currentPrice - OrderPrice o) * Quantity o
             else (OrderPrice o - currentPrice) * Quantity o in
  let pct := if negb (Qeq_bool (OrderPrice o) 0)
             then (pnl / (OrderPrice o * Quantity o)) * 100
             else PnLPercentage o in
  set_PnL o pnl pct.

(* ------------------------------------------------------------------ *)
(** ** The persistent store and the process state *)

(** The three tables: orders, order_audit, order_statuses. *)
Record DB := mkDB {
  orders : list Order;
  audits : list OrderAudit;
  statuses : list OrderStatusEntity
}.

(** Which store calls fail in a run (the store collaborator). *)
Record Faults := mkFaults {
  fail_query : bool;    (** reads: GetByOrderID, Exists, GetByID, ... *)
  fail_create : bool;   (** Order().Create *)
  fail_audit : bool;    (** OrderAudit().Create and tx.Create(audit) *)
  fail_begin : bool;    (** BeginTransaction *)
  fail_update : bool;   (** tx.Model(..).Update(..) *)
  fail_commit : bool    (** CommitTransaction *)
}.

Definition noFaults : Faults := mkFaults false false false false false false.

(** A log line: the format string of [log.Printf] and its argument. *)
Definition LogLine := (string * string)%type.

(** The process: the store, the log, the worker's [orderPlaced] field and
    the trace of calls to the exchange collaborator and of [time.Sleep]. *)
Record World := mkWorld {
  store : DB;
  logs : list LogLine;
  orderPlaced : bool;
  calls : list string
}.

Definition M (A : Type) := World -> Result A * World.

Definition ret {A} (a : A) : M A := fun w => (OK a, w).
Definition fail {A} (e : string) : M A := fun w => (Err e, w).
Definition bind {A B} (m : M A) (k : A -> M B) : M B :=
  fun w => match m w with
           | (OK a, w') => k a w'
           | (Err e, w') => (Err e, w')
           end.
(** run [m] and hand its error, if any, to the caller as a value *)
Definition try_ {A} (m : M A) : M (Result A) :=
  fun w => let '(r, w') := m w in (OK r, w').

Notation "x <- m ;; k" := (bind m (fun x => k))
  (at level 61, m at next level, right associativity).
Notation "m ;;; k" := (bind m (fun _ => k))
  (at level 61, right associativity).

Definition logf (fmt arg : string) : M unit :=
  fun w => (OK tt, mkWorld (store w) (logs w ++ [(fmt, arg)]) (orderPlaced w) (calls w)).
Definition logln (msg : string) : M unit := logf msg "".
Definition call (name : string) : M unit :=
  fun w => (OK tt, mkWorld (store w) (logs w) (orderPlaced w) (calls w ++ [name])).
Definition setOrderPlaced (b : bool) : M unit :=
  fun w => (OK tt, mkWorld (store w) (logs w) b (calls w)).
Definition getStore : M DB := fun w => (OK (store w), w).
Definition putStore (d : DB) : M unit :=
  fun w => (OK tt, mkWorld d (logs w) (orderPlaced w) (calls w)).

(* ------------------------------------------------------------------ *)
(** ** repositories: the store CRUD used by the service *)

Definition findOrder (id : string) (l : list Order) : option Order :=
  find (fun o => String.eqb (OrderID o) id) l.

(** Order().GetByOrderID *)
Definition GetByOrderID (f : Faults) (id : string) : M Order :=
  d <- getStore ;;
  if fail_query f then fail "query failed" else
  match findOrder id (orders d) with
  | Some o => ret o
  | None => fail "record not found"
  end.

(** Order().Exists *)
Definition Exists (f : Faults) (id : string) : M bool :=
  d <- getStore ;;
  if fail_query f then fail "query failed" else
  ret (match findOrder id (orders d) with Some _ => true | None => false end).

(** Order().GetByResult, ordered by created_at DESC: rows are kept in
    insertion order, so the newest comes last. *)
Definition GetByResult (f : Faults) (r : string) : M (list Order) :=
  d <- getStore ;;
  if fail_query f then fail "query failed" else
  ret (rev (filter (fun o => String.eqb (Result_ o) r) (orders d))).

(** OrderStatus().GetByID *)
Definition StatusGetByID (f : Faults) (id : nat) : M OrderStatusEntity :=
  d <- getStore ;;
  if fail_query f then fail "query failed" else
  match find (fun s => Nat.eqb (StatusID s) id) (statuses d) with
  | Some s => ret s
  | None => fail "record not found"
  end.

(** OrderStatus().GetByStatusName *)
Definition GetByStatusName (f : Faults) (name : string) : M OrderStatusEntity :=
  d <- getStore ;;
  if fail_query f then fail "query failed" else
  match find (fun s => String.eqb (StatusName s) name) (statuses d) with
  | Some s => ret s
  | None => fail "record not found"
  end.

(** Order().Create: an auto-committed INSERT running the BeforeCreate hook *)
Definition OrderCreate (f : Faults) (o : Order) : M unit :=
  d <- getStore ;;
  if fail_create f then fail "insert failed" else
  match OrderBeforeCreate o with
  | Err e => fail e
  | OK o' =>
      putStore (mkDB (orders d ++ [set_ID o' (S (length (orders d)))])
                     (audits d) (statuses d))
  end.

(** OrderAudit().Create: an auto-committed INSERT *)
Definition AuditCreate (f : Faults) (a : OrderAudit) : M unit :=
  d <- getStore ;;
  if fail_audit f then fail "insert failed" else
  match AuditBeforeCreate a with
  | Err e => fail e
  | OK a' => putStore (mkDB (orders d) (audits d ++ [a']) (statuses d))
  end.

(** A transaction works on its own copy of the tables: [tx] below.  Its
    writes reach the store only through [CommitTransaction]; a rollback
    drops the copy. *)
Definition BeginTransaction (f : Faults) : M DB :=
  d <- getStore ;;
  if fail_begin f then fail "begin failed" else ret d.

Definition RollbackTransaction (tx : DB) : M unit := ret tt.

Definition CommitTransaction (f : Faults) (tx : DB) : M unit :=
  if fail_commit f then fail "commit failed" else putStore tx.

(** tx.Model(&Order{}).Where("order_id = ?", id).Update(..) *)
Definition tx_update (f : Faults) (tx : DB) (id : string) (upd : Order -> Order)
  : Result DB :=
  if fail_update f then Err "update failed" else
  OK (mkDB (map (fun o => if String.eqb (OrderID o) id then upd o else o) (orders tx))
           (audits tx) (statuses tx)).

(** tx.Create(audit) *)
Definition tx_create_audit (f : Faults) (tx : DB) (a : OrderAudit) : Result DB :=
  if fail_audit f then Err "insert failed" else
  match AuditBeforeCreate a with
  | Err e => Err e
  | OK a' => OK (mkDB (orders tx) (audits tx ++ [a']) (statuses tx))
  end.

(** [fmt.Sprintf("%d", n)] *)
Fixpoint digits (fuel n : nat) (acc : string) : string :=
  match fuel with
  | O => acc
  | S fuel' =>
      let d := String (Ascii.ascii_of_nat (48 + Nat.modulo n 10)) EmptyString in
      if Nat.ltb n 10 then d ++ acc else digits fuel' (Nat.div n 10) (d ++ acc)
  end.
Definition Sprintf_d (n : nat) : string := digits (S n) n "".

(** The text a float takes in an audit row ("%.8f" in the source); the
    claims below never depend on it, so a rational is shown as p/q. *)
Definition Sprintf_f (q : Q) : string :=
  (if (Qnum q <? 0)%Z then "-" else "")
    ++ Sprintf_d (Z.to_nat (Z.abs (Qnum q))) ++ "/" ++ Sprintf_d (Pos.to_nat (Qden q)).

(* ------------------------------------------------------------------ *)
(** ** services/order_service.go *)

(** OrderService.validateOrder *)
Definition validateOrder (o : Order) : option string :=
  if String.eqb (OrderID o) "" then Some "order ID is required" else
  if String.eqb (Symbol o) "" then Some "symbol is required" else
  if qle (OrderPrice o) 0 then Some "order price must be positive" else
  if qle (Quantity o) 0 then Some "quantity must be positive" else
  if negb (String.eqb (Side o) OrderSideTypeBuy)
     && negb (String.eqb (Side o) OrderSideTypeSell)
  then Some ("invalid order side: " ++ Side o) else
  match
    match TakeProfitPrice o with
    | Some tp =>
        if qle tp 0 then Some "take profit price must be positive"
        else if String.eqb (Side o) OrderSideTypeBuy && qle tp (OrderPrice o)
        then Some "take profit price must be greater than order price for Buy orders"
        else if String.eqb (Side o) OrderSideTypeSell && qle (OrderPrice o) tp
        then Some "take profit price must be less than order price for Sell orders"
        else None
    | None => None
    end
  with
  | Some e => Some e
  | None =>
      match StopLossPrice o with
      | Some sl =>
          if qle sl 0 then Some "stop loss price must be positive"
          else if String.eqb (Side o) OrderSideTypeBuy && qle (OrderPrice o) sl
          then Some "stop loss price must be less than order price for Buy orders"
          else if String.eqb (Side o) OrderSideTypeSell && qle sl (OrderPrice o)
          then Some "stop loss price must be greater than order price for Sell orders"
          else None
      | None => None
      end
  end.

(** OrderService.CreateOrder: no transaction; the audit INSERT follows the
    auto-committed order INSERT and its failure is only printed. *)
Definition CreateOrder (f : Faults) (o : Order) : M unit :=
  match validateOrder o with
  | Some e => fail ("order validation failed: " ++ e)
  | None =>
      exists_ <- Exists f (OrderID o) ;;
      if exists_ then fail ("order with ID " ++ OrderID o ++ " already exists") else
      r <- try_ (StatusGetByID f (OrderStatusID o)) ;;
      match r with
      | Err e => fail ("invalid order status: " ++ e)
      | OK status =>
          if negb (IsActive status)
          then fail ("order status " ++ StatusName status ++ " is not active") else
          c <- try_ (OrderCreate f o) ;;
          match c with
          | Err e => fail ("failed to create order: " ++ e)
          | OK _ =>
              let audit := mkAudit (OrderID o) "created" None (Some "Order created") "system" in
              a <- try_ (AuditCreate f audit) ;;
              match a with
              | Err e => logf "Warning: failed to create audit record: %v" e ;;; ret tt
              | OK _ => ret tt
              end
          end
      end
  end.

(** OrderService.UpdateOrderStatus *)
Definition UpdateOrderStatus (f : Faults) (orderID statusName : string) : M unit :=
  rs <- try_ (GetByStatusName f statusName) ;;
  match rs with
  | Err e => fail ("invalid order status: " ++ e)
  | OK status =>
  ro <- try_ (GetByOrderID f orderID) ;;
  match ro with
  | Err e => fail ("failed to get order: " ++ e)
  | OK order =>
  if Nat.eqb (OrderStatusID order) (StatusID status) then ret tt else
  rt <- try_ (BeginTransaction f) ;;
  match rt with
  | Err e => fail ("failed to begin transaction: " ++ e)
  | OK tx =>
  match tx_update f tx orderID (fun o => set_OrderStatusID o (StatusID status)) with
  | Err e => RollbackTransaction tx ;;; fail ("failed to update order status: " ++ e)
  | OK tx1 =>
  let audit := mkAudit orderID "order_status_id"
                 (Some (Sprintf_d (OrderStatusID order)))
                 (Some (Sprintf_d (StatusID status))) "system" in
  match tx_create_audit f tx1 audit with
  | Err e => RollbackTransaction tx1 ;;; fail ("failed to create audit record: " ++ e)
  | OK tx2 =>
  rc <- try_ (CommitTransaction f tx2) ;;
  match rc with
  | Err e => fail ("failed to commit transaction: " ++ e)
  | OK _ => ret tt
  end end end end end end.

(** OrderService.UpdateOrderResult *)
Definition UpdateOrderResult (f : Faults) (orderID result : string) : M unit :=
  ro <- try_ (GetByOrderID f orderID) ;;
  match ro with
  | Err e => fail ("failed to get order: " ++ e)
  | OK order =>
  if String.eqb (Result_ order) result then ret tt else
  rt <- try_ (BeginTransaction f) ;;
  match rt with
  | Err e => fail ("failed to begin transaction: " ++ e)
  | OK tx =>
  match tx_update f tx orderID (fun o => set_Result o result) with
  | Err e => RollbackTransaction tx ;;; fail ("failed to update order result: " ++ e)
  | OK tx1 =>
  let audit := mkAudit orderID "result" (Some (Result_ order)) (Some result) "system" in
  match tx_create_audit f tx1 audit with
  | Err e => RollbackTransaction tx1 ;;; fail ("failed to create audit record: " ++ e)
  | OK tx2 =>
  rc <- try_ (CommitTransaction f tx2) ;;
  match rc with
  | Err e => fail ("failed to commit transaction: " ++ e)
  | OK _ => ret tt
  end end end end end.

(** OrderService.UpdateOrderPnL *)
Definition UpdateOrderPnL (f : Faults) (orderID : string) (currentPrice : Q) : M unit :=
  ro <- try_ (GetByOrderID f orderID) ;;
  match ro with
  | Err e => fail ("failed to get order: " ++ e)
  | OK order0 =>
  let order := CalculatePnL order0 currentPrice in
  rt <- try_ (BeginTransaction f) ;;
  match rt with
  | Err e => fail ("failed to begin transaction: " ++ e)
  | OK tx =>
  match tx_update f tx orderID (fun o => set_PnL o (PnL order) (PnLPercentage order)) with
  | Err e => RollbackTransaction tx ;;; fail ("failed to update order PnL: " ++ e)
  | OK tx1 =>
  let v := "PnL: " ++ Sprintf_f (PnL order) ++ ", PnL%: " ++ Sprintf_f (PnLPercentage order) in
  let audit := mkAudit orderID "pnl_update" (Some v) (Some v) "system" in
  match tx_create_audit f tx1 audit with
  | Err e => RollbackTransaction tx1 ;;; fail ("failed to create audit record: " ++ e)
  | OK tx2 =>
  rc <- try_ (CommitTransaction f tx2) ;;
  match rc with
  | Err e => fail ("failed to commit transaction: " ++ e)
  | OK _ => ret tt
  end end end end end.

(** OrderService.GetOrdersByResult *)
Definition GetOrdersByResult (f : Faults) (r : string) : M (list Order) :=
  ro <- try_ (GetByResult f r) ;;
  match ro with
  | Err e => fail ("failed to get orders by result: " ++ e)
  | OK l => ret l
  end.

(* ------------------------------------------------------------------ *)
(** ** worker/doge_trading_system.go: order placement *)

(** models.OrderResponse (the fields the worker reads) *)
Record OrderResponse := mkResp {
  RespOrderID : string;
  RespOrderLinkID : string;
  RespStatus : string;
  ErrorCode : string;
  ErrorMessage : string
}.

(** OrderResponse.IsSuccess *)
Definition IsSuccess (r : OrderResponse) : bool :=
  String.eqb (ErrorCode r) "" || String.eqb (ErrorCode r) "0".

(** What the collaborators answer during one placement attempt: the store
    faults, whether the worker's orderProcessor / orderService are set, the
    USDT balance and the exchange's answer to the placement request. *)
Record Env := mkEnv {
  faults : Faults;
  processorSet : bool;
  serviceSet : bool;
  usdtBalance : Result Q;
  placeResp : Result OrderResponse
}.

Definition bybitStatuses : list string :=
  ["New"; "PartiallyFilled"; "Filled"; "Cancelled"; "Rejected"; "Untriggered";
   "Triggered"; "Deactivated"; "PartiallyFilledCanceled"].

(** DogeTradingSystemWorker.mapBybitStatusToOrderStatusID *)
Definition mapBybitStatusToOrderStatusID (f : Faults) (bybitStatus : string) : M nat :=
  mappedStatus <-
    (if existsb (String.eqb bybitStatus) bybitStatuses then ret bybitStatus
     else logf "Stato Bybit '%s' non mappato, uso 'New' come default" bybitStatus ;;;
          ret "New") ;;
  r <- try_ (GetByStatusName f mappedStatus) ;;
  match r with
  | Err e => fail ("failed to get order status '" ++ mappedStatus ++ "': " ++ e)
  | OK status => ret (StatusID status)
  end.

(** DogeTradingSystemWorker.createOrderFromBybitResponse *)
Definition createOrderFromBybitResponse (f : Faults) (bybitResponse : OrderResponse)
  (triggerPrice quantity takeProfit stopLoss : Q) : M Order :=
  r <- try_ (mapBybitStatusToOrderStatusID f (RespStatus bybitResponse)) ;;
  match r with
  | Err e => fail ("failed to map Bybit status: " ++ e)
  | OK orderStatusID =>
      ret (mkOrder 0 (RespOrderID bybitResponse) "DOGEUSDT"
             OrderSideTypeBuy (* Sempre Buy per ordini LONG *)
             triggerPrice quantity (Some takeProfit) (Some stopLoss)
             orderStatusID OrderResultPending 0 0)
  end.

(** DogeTradingSystemWorker.saveOrderToDatabase *)
Definition saveOrderToDatabase (env : Env) (order : Order) : M unit :=
  if negb (serviceSet env) then fail "order service not initialized" else
  r <- try_ (CreateOrder (faults env) order) ;;
  match r with
  | Err e => fail ("failed to save order to database: " ++ e)
  | OK _ => logf "Ordine salvato nel database: %s" (OrderID order)
  end.

(** DogeTradingSystemWorker.calculateMaxQuantity *)
Definition calculateMaxQuantity (env : Env) (price : Q) : M Q :=
  if qle price 0 then ret 0 else
  call "GetUSDTBalance" ;;;
  match usdtBalance env with
  | Err e => logf "Errore nel recupero saldo USDT: %v" e ;;; ret 0
  | OK usdtBalance =>
      let availableBalance := usdtBalance in
      let quantity := availableBalance / price in
      logf "Saldo USDT disponibile: %.2f" (Sprintf_f usdtBalance) ;;;
      logf "Quantita calcolata: %.2f" (Sprintf_f quantity) ;;;
      ret quantity
  end.

Definition calculateLongStopLoss (price slPercentage : Q) : Q := price * (1 - slPercentage).
Definition calculateLongTakeProfit (price tpPercentage : Q) : Q := price * (1 + tpPercentage).
Definition calculateShortStopLoss (price tpPercentage : Q) : Q := price * (1 + tpPercentage).
Definition calculateShortTakeProfit (price slPercentage : Q) : Q := price * (1 - slPercentage).

(** The log lines of the two placement functions that tell the failure
    classes apart. *)
Definition msg_place_long_error := "ERRORE nel piazzamento ordine LONG: %v".
Definition msg_place_short_error := "ERRORE nel piazzamento ordine SHORT: %v".
Definition msg_rejected := "ERRORE: Ordine rifiutato - %s (codice: %s)".
Definition msg_build_error := "ERRORE: Impossibile creare ordine per database: %v".
Definition msg_save_error := "ERRORE: Impossibile salvare ordine nel database: %v".
Definition msg_unrecorded := "ATTENZIONE: Ordine piazzato su Bybit ma NON salvato nel database!".

(** DogeTradingSystemWorker.placeLongOrder *)
Definition placeLongOrder (env : Env) (currentPrice : Q) : M string :=
  logln "Placing LONG order..." ;;;
  if negb (processorSet env) then
    logln "ERRORE: OrderProcessor non configurato, impossibile piazzare ordine" ;;; ret ""
  else
  let symbol := "DOGEUSDT" in
  let triggerPrice := currentPrice in
  if qle triggerPrice 0 then
    logln "ERRORE: Impossibile calcolare il prezzo di trigger" ;;; ret ""
  else
  quantity <- calculateMaxQuantity env triggerPrice ;;
  if qle quantity 0 then
    logln "ERRORE: Impossibile calcolare la quantita" ;;; ret ""
  else
  let longTriggerPrice := currentPrice in
  let takeProfit := calculateLongTakeProfit currentPrice (3 # 100) in
  let stopLoss := calculateLongStopLoss currentPrice (8 # 1000) in
  call "PlaceLongOrder" ;;;
  match placeResp env with
  | Err e => logf msg_place_long_error e ;;; ret ""
  | OK longOrder =>
  if negb (IsSuccess longOrder) then
    logf msg_rejected (ErrorMessage longOrder ++ " " ++ ErrorCode longOrder) ;;; ret ""
  else
  logln "Ordine LONG piazzato con successo!" ;;;
  r <- try_ (createOrderFromBybitResponse (faults env) longOrder longTriggerPrice
               quantity takeProfit stopLoss) ;;
  match r with
  | Err e => logf msg_build_error e ;;; logln msg_unrecorded ;;; ret (RespOrderID longOrder)
  | OK dbOrder =>
  s <- try_ (saveOrderToDatabase env dbOrder) ;;
  match s with
  | Err e => logf msg_save_error e ;;; logln msg_unrecorded ;;; ret (RespOrderID longOrder)
  | OK _ =>
      logln "Ordine salvato nel database con successo!" ;;;
      setOrderPlaced true ;;;
      logln "Flag orderPlaced impostata a true" ;;;
      ret (RespOrderID longOrder)
  end end end.

(** DogeTradingSystemWorker.placeShortOrder *)
Definition placeShortOrder (env : Env) (currentPrice : Q) : M string :=
  logln "Placing SHORT order..." ;;;
  if negb (processorSet env) then
    logln "ERRORE: OrderProcessor non configurato, impossibile piazzare ordine" ;;; ret ""
  else
  let symbol := "DOGEUSDT" in
  let triggerPrice := currentPrice in
  if qle triggerPrice 0 then
    logln "ERRORE: Impossibile calcolare il prezzo di trigger" ;;; ret ""
  else
  quantity <- calculateMaxQuantity env triggerPrice ;;
  if qle quantity 0 then
    logln "ERRORE: Impossibile calcolare la quantita" ;;; ret ""
  else
  let takeProfit := calculateShortTakeProfit currentPrice (3 # 100) in
  let stopLoss := calculateShortStopLoss currentPrice (8 # 1000) in
  let shortTriggerPrice := currentPrice in
  call "PlaceShortOrder" ;;;
  match placeResp env with
  | Err e => logf msg_place_short_error e ;;; ret ""
  | OK shortOrder =>
  if negb (IsSuccess shortOrder) then
    logf msg_rejected (ErrorMessage shortOrder ++ " " ++ ErrorCode shortOrder) ;;; ret ""
  else
  logln "Ordine SHORT piazzato con successo!" ;;;
  r <- try_ (createOrderFromBybitResponse (faults env) shortOrder shortTriggerPrice
               quantity takeProfit stopLoss) ;;
  match r with
  | Err e => logf msg_build_error e ;;; logln msg_unrecorded ;;; ret (RespOrderID shortOrder)
  | OK dbOrder =>
  s <- try_ (saveOrderToDatabase env dbOrder) ;;
  match s with
  | Err e => logf msg_save_error e ;;; logln msg_unrecorded ;;; ret (RespOrderID shortOrder)
  | OK _ =>
      logln "Ordine salvato nel database con successo!" ;;;
      setOrderPlaced true ;;;
      logln "Flag orderPlaced impostata a true" ;;;
      ret (RespOrderID shortOrder)
  end end end.

(* ------------------------------------------------------------------ *)
(** ** worker/doge_trading_system.go: reconciliation *)

(** DogeTradingSystemWorker.isPostionActive; [positions] is the answer of
    orderProcessor.GetPositions.  The Go function returns (bool, error). *)
Definition isPostionActive (f : Faults) (positions : Result (list string))
  : M (bool * option string) :=
  call "GetPositions" ;;;
  match positions with
  | Err e => logf "Error getting position status: %v" e ;;; ret (false, Some e)
  | OK ps =>
  r <- try_ (GetOrdersByResult f OrderResultPending) ;;
  match r with
  | Err err2 => logf "Error getting order: %v" err2 ;;; ret (false, Some err2)
  | OK ords =>
  logf "Position Status: %s" (String.concat " " ps) ;;;
  if Nat.ltb 0 (length ps) then
    match ords with
    | [] =>
        logln "No order found with result Pending, but position is active, so the order has already been updated" ;;;
        ret (true, None)
    | o :: _ =>
        u <- try_ (UpdateOrderResult f (OrderID o) OrderResultDone) ;;
        match u with
        (* the source logs and returns [err], the (nil) error of GetPositions *)
        | Err _ => logf "Error updating order result: %v" "<nil>" ;;; ret (false, None)
        | OK _ => ret (true, None)
        end
    end
  else ret (false, None)
  end end.

(* ------------------------------------------------------------------ *)
(** ** worker/doge_trading_system.go: candles and signals *)

(** Go slice expression [s[lo:hi]] *)
Definition go_slice {A} (l : list A) (lo hi : Z) : GoOutcome (list A) :=
  if (lo <? 0)%Z || (hi <? lo)%Z || (Z.of_nat (length l) <? hi)%Z
  then Panic "runtime error: slice bounds out of range"
  else Ret (firstn (Z.to_nat (hi - lo)) (skipn (Z.to_nat lo) l)).

(** Go index expression [s[i]] *)
Definition go_index {A} (l : list A) (i : Z) : GoOutcome A :=
  if (i <? 0)%Z then Panic "runtime error: index out of range" else
  match nth_error l (Z.to_nat i) with
  | Some a => Ret a
  | None => Panic "runtime error: index out of range"
  end.

(** math.MaxFloat64 = (2^53 - 1) * 2^971 *)
Definition MaxFloat64 : Q := inject_Z ((2 ^ 53 - 1) * 2 ^ 971)%Z.

(** fetchLast1000Candles after the exchange call: the exchange collaborator
    (BybitExchange.FetchLastCandles) answers the candles newest first, or
    (nil, err).  [slices.Reverse] runs before the error check, so an error
    dereferences the nil response. *)
Definition fetchLast1000Candles (fetched : Result (list Candle)) : M (GoOutcome (list Candle)) :=
  logln "Fetching last 1000 candles for DOGEUSDT..." ;;;
  call "FetchLastCandles" ;;;
  match fetched with
  | Err _ => ret (Panic "runtime error: invalid memory address or nil pointer dereference")
  | OK cs => ret (Ret (rev cs))
  end.

Definition wall_support_step (acc : Q * Q) (candle : Candle) : Q * Q :=
  let '(wall, support) := acc in
  (if qlt wall (High candle) then High candle else wall,
   if qlt (Low candle) support then Low candle else support).

(** DogeTradingSystemWorker.extractCandlesForChecks *)
Definition extractCandlesForChecks (taCandlesticks : list Candle)
  : GoOutcome (Result (list Candle * Q * Q)) :=
  let n := Z.of_nat (length taCandlesticks) in
  if (n <? 72)%Z then
    Ret (Err "not enough candles for checks. Need at least 5")
  else
  match go_slice taCandlesticks (n - 74) (n - 2) with
  | Panic m => Panic m
  | Ret last72Candles =>
      let '(wall, support) := fold_left wall_support_step last72Candles (0, MaxFloat64) in
      Ret (OK (last72Candles, wall, support))
  end.

(** DogeTradingSystemWorker.checkWallAndSupportBreak *)
Definition checkWallAndSupportBreak (currentClosedCandle : Candle)
  (lastFiveCandles : list Candle) (wall support : Q) : bool * bool :=
  if Nat.ltb (length lastFiveCandles) 72 then (false, false) else
  let lastCandle := currentClosedCandle in
  if qlt wall (Close lastCandle) then (true, false)
  else if qlt (Close lastCandle) support then (false, true)
  else (false, false).

(** Float64 values that a division by the constant [0.0] can produce. *)
Inductive F := Fin (q : Q) | PosInf | NegInf | NaN.

(** [a / b] on float64, the divisor being the positive zero when it is 0 *)
Definition fdiv (a b : Q) : F :=
  if Qeq_bool b 0 then
    (if qlt 0 a then PosInf else if qlt a 0 then NegInf else NaN)
  else Fin (a / b).

(** [x > c] for a finite constant [c] *)
Definition fgt (x : F) (c : Q) : bool :=
  match x with Fin a => qlt c a | PosInf => true | NegInf => false | NaN => false end.

(** [x * c] for a positive finite constant [c] *)
Definition fmul (x : F) (c : Q) : F :=
  match x with Fin a => Fin (a * c) | y => y end.

(** [v > x] for a finite [v] *)
Definition qgtf (v : Q) (x : F) : bool :=
  match x with Fin a => qlt a v | PosInf => false | NegInf => true | NaN => false end.

Definition candle0 : Candle := mkCandle 0 0 0 0 0 0.

(** first loop of calculateGreenCandlesAverageVolume:
    for i := len-2; i > 0 && greenCandlesCount < 10; i-- *)
Fixpoint green_loop (cs : list Candle) (i : nat) (vol : Q) (cnt : nat) : Q * nat :=
  match i with
  | O => (vol, cnt)
  | S i' =>
      if Nat.ltb cnt 10 then
        let c := nth i cs candle0 in
        if qlt (Open c) (Close c) then green_loop cs i' (vol + Volume c) (S cnt)
        else green_loop cs i' vol cnt
      else (vol, cnt)
  end.

(** second loop of calculateGreenCandlesAverageVolume: its guard tests
    greenCandlesCount and its body adds to greenCandlesAverageVolume *)
Fixpoint green_general_loop (cs : list Candle) (i : nat) (greenVol : Q)
  (greenCnt generalCnt : nat) : Q * nat :=
  match i with
  | O => (greenVol, generalCnt)
  | S i' =>
      if Nat.ltb greenCnt 10 then
        green_general_loop cs i' (greenVol + Volume (nth i cs candle0)) greenCnt (S generalCnt)
      else (greenVol, generalCnt)
  end.

(** DogeTradingSystemWorker.calculateGreenCandlesAverageVolume *)
Definition calculateGreenCandlesAverageVolume (taCandlesticks : list Candle) : F :=
  let start := (length taCandlesticks - 2)%nat in
  let '(greenCandlesAverageVolume, greenCandlesCount) := green_loop taCandlesticks start 0 0 in
  let '(greenCandlesAverageVolume', _) :=
    green_general_loop taCandlesticks start greenCandlesAverageVolume greenCandlesCount 0 in
  let generalCandlesAverageVolume := 0 in
  fdiv greenCandlesAverageVolume' generalCandlesAverageVolume.

(** first loop of calculateRedCandlesAverageVolume *)
Fixpoint red_loop (cs : list Candle) (i : nat) (vol : Q) (cnt : nat) : Q * nat :=
  match i with
  | O => (vol, cnt)
  | S i' =>
      if Nat.ltb cnt 10 then
        let c := nth i cs candle0 in
        if qlt (Close c) (Open c) then red_loop cs i' (vol + Volume c) (S cnt)
        else red_loop cs i' vol cnt
      else (vol, cnt)
  end.

(** second loop of calculateRedCandlesAverageVolume *)
Fixpoint general_loop (cs : list Candle) (i : nat) (vol : Q) (cnt : nat) : Q * nat :=
  match i with
  | O => (vol, cnt)
  | S i' =>
      if Nat.ltb cnt 10 then general_loop cs i' (vol + Volume (nth i cs candle0)) (S cnt)
      else (vol, cnt)
  end.

(** DogeTradingSystemWorker.calculateRedCandlesAverageVolume *)
Definition calculateRedCandlesAverageVolume (taCandlesticks : list Candle) : F :=
  let start := (length taCandlesticks - 2)%nat in
  let '(redCandlesAverageVolume, _) := red_loop taCandlesticks start 0 0 in
  let '(generalCandlesAverageVolume, _) := general_loop taCandlesticks start 0 0 in
  fdiv redCandlesAverageVolume generalCandlesAverageVolume.

(** The volume condition of executeTradingCycle:
    [ratio > 0.6 && currentClosedCandle.Volume > ratio*1.2] *)
Definition volumeConfirmed (ratio : F) (currentClosedCandle : Candle) : bool :=
  fgt ratio (6 # 10) && qgtf (Volume currentClosedCandle) (fmul ratio (12 # 10)).

(* ------------------------------------------------------------------ *)
(** ** worker/doge_trading_system.go: the trading cycle *)

(** The LONG placement block of executeTradingCycle: an attempt, and up to
    two more after [time.Sleep(1 * time.Second)] while the returned orderID
    is empty.  [e1], [e2], [e3] are the collaborators' answers to the three
    attempts; the result is the final value of the local [orderID]. *)
Definition placeLongWithRetry (e1 e2 e3 : Env) (price : Q) : M string :=
  orderID <- placeLongOrder e1 price ;;
  if String.eqb orderID "" then
    logln "Failed to place LONG order" ;;;
    call "Sleep 1s" ;;;
    orderID <- placeLongOrder e2 price ;;
    if String.eqb orderID "" then
      logln "Failed to place LONG order second time" ;;;
      logln "Trying last time" ;;;
      call "Sleep 1s" ;;;
      orderID <- placeLongOrder e3 price ;;
      if String.eqb orderID "" then
        logln "Failed to place LONG order third time" ;;; ret orderID
      else ret orderID
    else ret orderID
  else ret orderID.

(** The SHORT placement block of executeTradingCycle. *)
Definition placeShortWithRetry (e1 e2 e3 : Env) (price : Q) : M string :=
  orderID <- placeShortOrder e1 price ;;
  if String.eqb orderID "" then
    logln "Failed to place SHORT order" ;;;
    call "Sleep 1s" ;;;
    orderID <- placeShortOrder e2 price ;;
    if String.eqb orderID "" then
      logln "Failed to place SHORT order second time" ;;;
      logln "Trying last time" ;;;
      call "Sleep 1s" ;;;
      orderID <- placeShortOrder e3 price ;;
      if String.eqb orderID "" then
        logln "Failed to place SHORT order third time" ;;; ret orderID
      else ret orderID
    else ret orderID
  else ret orderID.

(** What a cycle reaches: it returns, possibly after placing, or panics. *)
Inductive CycleEnd :=
| Bypassed            (** an error in phase 0, or orderPlaced = true *)
| NoCandles           (** never reached: see fetchLast1000Candles *)
| ExtractError (e : string)
| NoSignal
| NotConfirmed
| Placed (orderID : string)
| Panicked (msg : string).

(** DogeTradingSystemWorker.executeTradingCycle.  [env0] answers phase 0,
    [positions] is GetPositions' answer, [fetched] the candle fetch, and
    [e1], [e2], [e3] the placement attempts. *)
Definition executeTradingCycle (env0 : Env) (positions : Result (list string))
  (fetched : Result (list Candle)) (e1 e2 e3 : Env) : M CycleEnd :=
  logln "Executing DOGE Trading Cycle..." ;;;
  (* a nil orderProcessor makes GetPositions dereference nil *)
  if negb (processorSet env0)
  then ret (Panicked "runtime error: invalid memory address or nil pointer dereference")
  else
  r <- isPostionActive (faults env0) positions ;;
  match r with
  | (_, Some e) => logf "Errore nel controllo orderPlaced: %v" e ;;; ret Bypassed
  | (op, None) =>
  setOrderPlaced op ;;;
  if op then logln "orderPlaced=true - Bypass del ciclo di trading" ;;; ret Bypassed else
  fr <- fetchLast1000Candles fetched ;;
  match fr with
  | Panic m => ret (Panicked m)
  | Ret candles =>
  match extractCandlesForChecks candles with
  | Panic m => ret (Panicked m)
  | Ret ex =>
  match go_index candles (Z.of_nat (length candles) - 2) with
  | Panic m => ret (Panicked m)
  | Ret currentClosedCandle =>
  match ex with
  | Err e => logf "Error extracting candles for checks: %v" e ;;; ret (ExtractError e)
  | OK (last40Candles, wall, support) =>
  let '(wallBreak, supportBreak) :=
    checkWallAndSupportBreak currentClosedCandle last40Candles wall support in
  if wallBreak then
    let greenCandlesVolumeTotAvg := calculateGreenCandlesAverageVolume candles in
    if volumeConfirmed greenCandlesVolumeTotAvg currentClosedCandle then
      orderID <- placeLongWithRetry e1 e2 e3 (Close currentClosedCandle) ;;
      ret (Placed orderID)
    else ret NotConfirmed
  else if supportBreak then
    let redCandlesVolumeTotAvg := calculateRedCandlesAverageVolume candles in
    if volumeConfirmed redCandlesVolumeTotAvg currentClosedCandle then
      orderID <- placeShortWithRetry e1 e2 e3 (Close currentClosedCandle) ;;
      ret (Placed orderID)
    else ret NotConfirmed
  else logln "Trading conditions not met, skipping order placement" ;;; ret NoSignal
  end end end end end.

(* ------------------------------------------------------------------ *)
(** ** Concrete inputs *)

(** A store whose only fault is the audit INSERT. *)
Definition auditFault : Faults := mkFaults false false true false false false.

(** A well-formed Buy order and an empty store knowing status 1 = New. *)
Definition order_c1 : Order :=
  mkOrder 0 "ord-1" "DOGEUSDT" OrderSideTypeBuy 1 100 (Some (103 # 100)) (Some (992 # 1000))
    1 OrderResultPending 0 0.
Definition world_c1 : World := mkWorld (mkDB [] [] [mkStatus 1 "New" true]) [] false [].

(** A Buy order whose take profit is below its price. *)
Definition order_bad_tp : Order :=
  mkOrder 0 "ord-2" "DOGEUSDT" OrderSideTypeBuy 1 100 (Some (1 # 2)) None
    1 OrderResultPending 0 0.

(** The store holding [order_c1] (id 1, Pending), the one open order. *)
Definition world_c2 : World :=
  mkWorld (mkDB [set_ID order_c1 1] [] [mkStatus 1 "New" true]) [] false [].

(** A placement attempt with 10 USDT available and an exchange that refuses. *)
Definition env_c3 : Env := mkEnv noFaults true true (OK 10) (Err "rejected").



(** A red (close < open) and a green (close > open) candle of volume [v]. *)
Definition red_candle (v : Q) : Candle := mkCandle 0 2 2 1 1 v.
Definition green_candle (v : Q) : Candle := mkCandle 0 1 2 1 2 v.

(** Twelve candles: index 0 and the open candle (index 11) lie outside the
    backward scan; in indices 1..10 the red volume is 61 of 100, and the
    breaking candle (index 10) is red with volume 11. *)
Definition series_red_61 : list Candle :=
  [green_candle 0; red_candle 10; red_candle 10; red_candle 10; red_candle 10;
   red_candle 10; green_candle 10; green_candle 10; green_candle 10; green_candle 9;
   red_candle 11; green_candle 0].

(** The same with red volume exactly 60 of 100. *)
Definition series_red_60 : list Candle :=
  [green_candle 0; red_candle 10; red_candle 10; red_candle 10; red_candle 10;
   red_candle 10; green_candle 10; green_candle 10; green_candle 10; green_candle 10;
   red_candle 10; green_candle 0].

(** The colours swapped: green volume 61 of 100, a green breaking candle. *)
Definition series_green_61 : list Candle :=
  [red_candle 0; green_candle 10; green_candle 10; green_candle 10; green_candle 10;
   green_candle 10; red_candle 10; red_candle 10; red_candle 10; red_candle 9;
   green_candle 11; red_candle 0].

(** Seventy-four equal candles, high 2 and low 1. *)
Definition candles_74 : list Candle := repeat (mkCandle 0 1 2 1 1 1) 74.



(** How many of the calls in [l] are [name]. *)
Definition count_calls (name : string) (l : list string) : nat :=
  List.length (filter (String.eqb name) l).

(** The calls one placement attempt makes. *)
Definition attempt_calls (exchangeCall : string) (l : list string) : Prop :=
  l = [] \/ l = ["GetUSDTBalance"] \/ l = ["GetUSDTBalance"; exchangeCall].

(** An exchange acknowledgement, and a placement attempt with 10 USDT
    available whose order service is not initialised. *)
Definition resp_c8 : OrderResponse := mkResp "bybit-1" "" "New" "0" "OK".
Definition env_c8 : Env := mkEnv noFaults true false (OK 10) (OK resp_c8).

(* ------------------------------------------------------------------ *)
(** ** models/order.go: the Order predicates *)

(** Order.IsActive; [orderStatus] is the preloaded OrderStatus
    association ([nil]: [None]). *)
Definition Order_IsActive (o : Order) (orderStatus : option OrderStatusEntity) : bool :=
  match orderStatus with
  | None => false
  | Some st =>
      String.eqb (Result_ o) OrderResultPending &&
      (String.eqb (StatusName st) "New" ||
       String.eqb (StatusName st) "PartiallyFilled" ||
       String.eqb (StatusName st) "Untriggered" ||
       String.eqb (StatusName st) "Triggered")
  end.

(** Order.IsCompleted *)
Definition IsCompleted (o : Order) : bool := negb (String.eqb (Result_ o) OrderResultPending).

(** Order.IsProfitable *)
Definition IsProfitable (o : Order) : bool := String.eqb (Result_ o) OrderResultProfit.

(** Order.IsLosing *)
Definition IsLosing (o : Order) : bool := String.eqb (Result_ o) OrderResultLoss.

(* ------------------------------------------------------------------ *)
(** ** models.OrderAudit (services/order_service.go) *)

(** OrderAudit.IsSignificantChange *)
Definition IsSignificantChange (oa : OrderAudit) : bool :=
  match OldValue oa, NewValue oa with
  | None, None => false
  | None, _ | _, None => true
  | Some o, Some n => negb (String.eqb o n)
  end.

(** OrderAudit.GetOldValue *)
Definition GetOldValue (oa : OrderAudit) : string :=
  match OldValue oa with None => "" | Some v => v end.

(** OrderAudit.GetNewValue *)
Definition GetNewValue (oa : OrderAudit) : string :=
  match NewValue oa with None => "" | Some v => v end.

(** OrderAudit.SetOldValue *)
Definition SetOldValue (oa : OrderAudit) (value : string) : OrderAudit :=
  mkAudit (AuditOrderID oa) (FieldName oa) (Some value) (NewValue oa) (ChangedBy oa).

(** OrderAudit.SetNewValue *)
Definition SetNewValue (oa : OrderAudit) (value : string) : OrderAudit :=
  mkAudit (AuditOrderID oa) (FieldName oa) (OldValue oa) (Some value) (ChangedBy oa).

(* ------------------------------------------------------------------ *)
(** ** repositories/order_audit_repo.go and the audit trail *)

(** OrderAudit().GetByOrderID: [WHERE order_id = ?], a positive [limit] and
    [offset] become LIMIT and OFFSET, ordered by changed_at DESC (rows are
    kept in insertion order, so the newest comes last). *)
Definition AuditGetByOrderID (f : Faults) (orderID : string) (limit offset : Z)
  : M (list OrderAudit) :=
  d <- getStore ;;
  if fail_query f then fail "query failed" else
  let rows := rev (filter (fun a => String.eqb (AuditOrderID a) orderID) (audits d)) in
  let rows := if (0 <? offset)%Z then skipn (Z.to_nat offset) rows else rows in
  ret (if (0 <? limit)%Z then firstn (Z.to_nat limit) rows else rows).

(** OrderService.GetOrderWithAudit *)
Definition GetOrderWithAudit (f : Faults) (orderID : string) : M (Order * list OrderAudit) :=
  ro <- try_ (GetByOrderID f orderID) ;;
  match ro with
  | Err e => fail ("failed to get order: " ++ e)
  | OK order =>
  ra <- try_ (AuditGetByOrderID f orderID 0 0) ;;
  match ra with
  | Err e => fail ("failed to get audit trail: " ++ e)
  | OK auditRows => ret (order, auditRows)
  end end.

(* ------------------------------------------------------------------ *)
(** ** OrderService.UpdateOrder and createAuditRecords *)

(** tx.Save(order) of gorm: an Order with a zero primary key is INSERTed
    (BeforeCreate hook); any other one is UPDATEd by primary key (BeforeUpdate
    hook), and INSERTed as it is when no row has that key.  The unique index
    on order_id refuses a second row with the same OrderID. *)
Definition tx_save (f : Faults) (tx : DB) (o : Order) : Result DB :=
  if fail_update f then Err "update failed" else
  if Nat.eqb (ID o) 0 then
    match OrderBeforeCreate o with
    | Err e => Err e
    | OK o' =>
        if existsb (fun x => String.eqb (OrderID x) (OrderID o')) (orders tx)
        then Err "UNIQUE constraint failed: orders.order_id"
        else OK (mkDB (orders tx ++ [set_ID o' (S (length (orders tx)))])
                      (audits tx) (statuses tx))
    end
  else
    match validatePrices o with
    | Some e => Err e
    | None =>
        if existsb (fun x => negb (Nat.eqb (ID x) (ID o)) && String.eqb (OrderID x) (OrderID o))
             (orders tx)
        then Err "UNIQUE constraint failed: orders.order_id"
        else if existsb (fun x => Nat.eqb (ID x) (ID o)) (orders tx)
        then OK (mkDB (map (fun x => if Nat.eqb (ID x) (ID o) then o else x) (orders tx))
                      (audits tx) (statuses tx))
        else OK (mkDB (orders tx ++ [o]) (audits tx) (statuses tx))
    end.

(** [*a != *b] of two [*float64] that are both set, or exactly one set *)
Definition ptrPriceChanged (a b : option Q) : bool :=
  match a, b with
  | None, Some _ => true
  | Some _, None => true
  | Some x, Some y => negb (Qeq_bool x y)
  | None, None => false
  end.

(** if cond { if err := tx.Create(audit).Error; err != nil { return err } } *)
Definition createAuditIf (f : Faults) (cond : bool) (audit : OrderAudit) (tx : DB)
  (k : DB -> Result DB) : Result DB :=
  if cond then
    match tx_create_audit f tx audit with
    | Err e => Err e
    | OK tx' => k tx'
    end
  else k tx.

(** OrderService.createAuditRecords *)
Definition createAuditRecords (f : Faults) (tx : DB) (oldOrder newOrder : Order) : Result DB :=
  createAuditIf f (negb (Qeq_bool (OrderPrice oldOrder) (OrderPrice newOrder)))
    (mkAudit (OrderID newOrder) "order_price"
       (Some (Sprintf_f (OrderPrice oldOrder))) (Some (Sprintf_f (OrderPrice newOrder))) "system")
    tx (fun tx =>
  createAuditIf f (ptrPriceChanged (TakeProfitPrice oldOrder) (TakeProfitPrice newOrder))
    (mkAudit (OrderID newOrder) "take_profit_price"
       (option_map Sprintf_f (TakeProfitPrice oldOrder))
       (option_map Sprintf_f (TakeProfitPrice newOrder)) "system")
    tx (fun tx =>
  createAuditIf f (ptrPriceChanged (StopLossPrice oldOrder) (StopLossPrice newOrder))
    (mkAudit (OrderID newOrder) "stop_loss_price"
       (option_map Sprintf_f (StopLossPrice oldOrder))
       (option_map Sprintf_f (StopLossPrice newOrder)) "system")
    tx (fun tx =>
  createAuditIf f (negb (Nat.eqb (OrderStatusID oldOrder) (OrderStatusID newOrder)))
    (mkAudit (OrderID newOrder) "order_status_id"
       (Some (Sprintf_d (OrderStatusID oldOrder))) (Some (Sprintf_d (OrderStatusID newOrder)))
       "system")
    tx (fun tx =>
  createAuditIf f (negb (String.eqb (Result_ oldOrder) (Result_ newOrder)))
    (mkAudit (OrderID newOrder) "result"
       (Some (Result_ oldOrder)) (Some (Result_ newOrder)) "system")
    tx (fun tx => OK tx))))).

(** OrderService.UpdateOrder *)
Definition UpdateOrder (f : Faults) (order : Order) : M unit :=
  re <- try_ (GetByOrderID f (OrderID order)) ;;
  match re with
  | Err e => fail ("failed to get existing order: " ++ e)
  | OK existingOrder =>
  match validateOrder order with
  | Some e => fail ("order validation failed: " ++ e)
  | None =>
  rt <- try_ (BeginTransaction f) ;;
  match rt with
  | Err e => fail ("failed to begin transaction: " ++ e)
  | OK tx =>
  match tx_save f tx order with
  | Err e => RollbackTransaction tx ;;; fail ("failed to update order: " ++ e)
  | OK tx1 =>
  match createAuditRecords f tx1 existingOrder order with
  | Err e => RollbackTransaction tx1 ;;; fail ("failed to create audit records: " ++ e)
  | OK tx2 =>
  rc <- try_ (CommitTransaction f tx2) ;;
  match rc with
  | Err e => fail ("failed to commit transaction: " ++ e)
  | OK _ => ret tt
  end end end end end end.

(* ------------------------------------------------------------------ *)
(** ** worker/doge_trading_system.go: balance, order monitoring, volume maxima *)





(** the loop of calculateGreenCandlesVolumeMax:
    for i := len-2; i > 0 && greenCandlesCount < 10; i-- *)
Fixpoint green_max_loop (cs : list Candle) (i : nat) (vmax : Q) (cnt : nat) : Q :=
  match i with
  | O => vmax
  | S i' =>
      if Nat.ltb cnt 10 then
        let c := nth i cs candle0 in
        if qlt (Open c) (Close c)
        then green_max_loop cs i' (if qlt vmax (Volume c) then Volume c else vmax) (S cnt)
        else green_max_loop cs i' vmax cnt
      else vmax
  end.

(** DogeTradingSystemWorker.calculateGreenCandlesVolumeMax *)
Definition calculateGreenCandlesVolumeMax (taCandlesticks : list Candle) : Q :=
  green_max_loop taCandlesticks (length taCandlesticks - 2) 0 0.

(** the loop of calculateRedCandlesVolumeMax *)
Fixpoint red_max_loop (cs : list Candle) (i : nat) (vmax : Q) (cnt : nat) : Q :=
  match i with
  | O => vmax
  | S i' =>
      if Nat.ltb cnt 10 then
        let c := nth i cs candle0 in
        if qlt (Close c) (Open c)
        then red_max_loop cs i' (if qlt vmax (Volume c) then Volume c else vmax) (S cnt)
        else red_max_loop cs i' vmax cnt
      else vmax
  end.

(** DogeTradingSystemWorker.calculateRedCandlesVolumeMax *)
Definition calculateRedCandlesVolumeMax (taCandlesticks : list Candle) : Q :=
  red_max_loop taCandlesticks (length taCandlesticks - 2) 0 0.


(** Two [*float64] that are both nil, or both set to equal values *)
Definition samePrice (a b : option Q) : Prop :=
  match a, b with
  | None, None => True
  | Some x, Some y => (x == y)%Q
  | _, _ => False
  end.

(** The loop shared by calculateGreenCandlesVolumeMax and
    calculateRedCandlesVolumeMax, with the colour test [p] as a parameter. *)
Fixpoint volume_max_loop (p : Candle -> bool) (cs : list Candle) (i : nat) (vmax : Q) (cnt : nat) : Q :=
  match i with
  | O => vmax
  | S i' =>
      if Nat.ltb cnt 10 then
        let c := nth i cs candle0 in
        if p c
        then volume_max_loop p cs i' (if qlt vmax (Volume c) then Volume c else vmax) (S cnt)
        else volume_max_loop p cs i' vmax cnt
      else vmax
  end.

(** Index [j] is one of the candles of colour [p] the loop counts when it runs
    down from index [n]: it lies in 1..n, has the colour, and fewer than ten
    candles of that colour lie above it, up to [n]. *)
Definition scanned_candle (p : Candle -> bool) (cs : list Candle) (n j : nat) : Prop :=
  (1 <= j <= n)%nat /\ p (nth j cs candle0) = true /\
  (List.length (filter (fun k => p (nth k cs candle0)) (seq (S j) (n - j))) < 10)%nat.

(* ================================================================== *)
(** * Proofs *)

Arguments CreateOrder : simpl never.

Ltac destruct_ifs :=
  repeat (match goal with
          | |- context [if ?b then _ else _] => destruct b eqn:?
          end; simpl in *).

Ltac destruct_matches :=
  repeat (match goal with
          | |- context [match ?x with _ => _ end] => destruct x eqn:?
          end; simpl in *).

Lemma qle_true (a b : Q) : (a <= b)%Q -> qle a b = true.
Proof. intros H. apply Qle_bool_iff. exact H. Qed.

Lemma qle_false (a b : Q) : qle a b = false -> (b < a)%Q.
Proof.
  intros H. apply Qnot_le_lt. intros H'. apply Qle_bool_iff in H'.
  unfold qle in H. congruence.
Qed.

Lemma qlt_true (a b : Q) : qlt a b = true <-> (a < b)%Q.
Proof.
  unfold qlt. split.
  - intros H. apply Qnot_le_lt. intros H'. apply Qle_bool_iff in H'.
    rewrite H' in H. discriminate.
  - intros H. destruct (Qle_bool b a) eqn:E; [|reflexivity].
    apply Qle_bool_iff in E. exfalso. apply (Qlt_not_le a b H E).
Qed.

(** The effect of OrderService.CreateOrder on the process: it fails with
    nothing changed, or it appended the order (as the BeforeCreate hook left
    it) to the orders table; an audit fault never turns it into a failure. *)
Lemma CreateOrder_effect (f : Faults) (o : Order) (w : World) :
  let '(r, w') := CreateOrder f o w in
  ((exists e, r = Err e) /\ w' = w) \/
  (r = OK tt /\ validateOrder o = None /\
   exists o', OrderBeforeCreate o = OK o' /\
     orders (store w') = (orders (store w) ++ [set_ID o' (S (List.length (orders (store w))))])%list /\
     statuses (store w') = statuses (store w) /\
     orderPlaced w' = orderPlaced w /\ calls w' = calls w /\
     (fail_audit f = true ->
        audits (store w') = audits (store w) /\
        exists e, logs w' = (logs w ++ [("Warning: failed to create audit record: %v", e)])%list)).
Proof.
  unfold CreateOrder.
  destruct (validateOrder o) eqn:Hv; [left; eauto|].
  unfold Exists, StatusGetByID, OrderCreate, AuditCreate, bind, try_, getStore, putStore,
    ret, fail, logf; simpl.
  destruct (fail_query f); simpl; [left; eauto|].
  destruct (findOrder (OrderID o) (orders (store w))); simpl; [left; eauto|].
  destruct (find _ (statuses (store w))) as [s|]; simpl; [|left; eauto].
  destruct (IsActive s); simpl; [|left; eauto].
  destruct (fail_create f); simpl; [left; eauto|].
  destruct (OrderBeforeCreate o) as [o'|e] eqn:Hb; simpl; [|left; eauto].
  destruct (fail_audit f) eqn:Ha; [|destruct (AuditBeforeCreate _)]; simpl;
    right; (split; [reflexivity|]); (split; [reflexivity|]); exists o';
    repeat split; eauto; discriminate.
Qed.

(** C9: OrderService.validateOrder rejects a Buy order whose take profit is
    not above its price or whose stop loss is not below it, and a Sell order
    whose stop loss is not above its price or whose take profit is not below
    it; CreateOrder then fails and leaves the process untouched. *)
Theorem validateOrder_rejects_misdirected_tp_sl (o : Order) :
  ((Side o = OrderSideTypeBuy /\
     ((exists tp, TakeProfitPrice o = Some tp /\ (tp <= OrderPrice o)%Q) \/
      (exists sl, StopLossPrice o = Some sl /\ (OrderPrice o <= sl)%Q))) \/
   (Side o = OrderSideTypeSell /\
     ((exists sl, StopLossPrice o = Some sl /\ (sl <= OrderPrice o)%Q) \/
      (exists tp, TakeProfitPrice o = Some tp /\ (OrderPrice o <= tp)%Q)))) ->
  validateOrder o <> None /\
  (forall (f : Faults) (w : World), exists e, CreateOrder f o w = (Err e, w)).
Proof.
  intros H.
  assert (Hv : validateOrder o <> None).
  { destruct o as [id oid sym side price qty tp sl st res pnl pp]; simpl in *.
    unfold validateOrder; simpl.
    destruct H as [[-> [[tp0 [-> Hle]]|[sl0 [-> Hle]]]]|[-> [[sl0 [-> Hle]]|[tp0 [-> Hle]]]]];
      apply qle_true in Hle; unfold OrderSideTypeBuy, OrderSideTypeSell; simpl;
      destruct_ifs; try destruct tp; destruct_ifs; congruence. }
  split; [exact Hv|].
  intros f w. unfold CreateOrder.
  destruct (validateOrder o); [eexists; reflexivity|congruence].
Qed.

Lemma validateOrder_rejects_misdirected_tp_sl_witness :
  validateOrder order_bad_tp <> None /\
  (forall (f : Faults) (w : World), exists e, CreateOrder f order_bad_tp w = (Err e, w)).
Proof.
  apply (validateOrder_rejects_misdirected_tp_sl order_bad_tp).
  left. split; [reflexivity|]. left. exists (1 # 2). split; [reflexivity|].
  unfold Qle; simpl; lia.
Defined.


Lemma UpdateOrderResult_audit_fault (f : Faults) (w : World) (orderID result : string) :
  fail_audit f = true ->
  let '(r, w') := UpdateOrderResult f orderID result w in
  store w' = store w /\
  ((exists e, r = Err e) \/
   (r = OK tt /\ exists order, findOrder orderID (orders (store w)) = Some order /\
                               Result_ order = result)).
Proof.
  intros Ha. unfold UpdateOrderResult, GetByOrderID, BeginTransaction, tx_create_audit,
    RollbackTransaction, CommitTransaction, bind, try_, getStore, ret, fail; simpl.
  destruct (fail_query f); simpl; [split; eauto|].
  destruct (findOrder orderID (orders (store w))) as [order|] eqn:Hf; simpl; [|split; eauto].
  destruct (String.eqb (Result_ order) result) eqn:Hr; simpl.
  - split; [reflexivity|]. right. split; [reflexivity|]. exists order. split; [reflexivity|].
    apply String.eqb_eq. exact Hr.
  - destruct (fail_begin f); simpl; [split; eauto|].
    destruct (tx_update _ _ _ _); simpl; [|split; eauto].
    rewrite Ha; simpl. split; eauto.
Qed.

Lemma UpdateOrderStatus_audit_fault (f : Faults) (w : World) (orderID statusName : string) :
  fail_audit f = true ->
  let '(r, w') := UpdateOrderStatus f orderID statusName w in
  store w' = store w /\
  ((exists e, r = Err e) \/
   (r = OK tt /\ exists order status,
      findOrder orderID (orders (store w)) = Some order /\
      find (fun s => String.eqb (StatusName s) statusName) (statuses (store w)) = Some status /\
      OrderStatusID order = StatusID status)).
Proof.
  intros Ha. unfold UpdateOrderStatus, GetByStatusName, GetByOrderID, BeginTransaction,
    tx_create_audit, RollbackTransaction, CommitTransaction, bind, try_, getStore, ret, fail;
    simpl.
  destruct (fail_query f); simpl; [split; eauto|].
  destruct (find _ (statuses (store w))) as [status|] eqn:Hs; simpl; [|split; eauto].
  destruct (findOrder orderID (orders (store w))) as [order|] eqn:Hf; simpl; [|split; eauto].
  destruct (Nat.eqb (OrderStatusID order) (StatusID status)) eqn:Hr; simpl.
  - split; [reflexivity|]. right. split; [reflexivity|]. exists order, status.
    repeat split; auto. apply Nat.eqb_eq. exact Hr.
  - destruct (fail_begin f); simpl; [split; eauto|].
    destruct (tx_update _ _ _ _); simpl; [|split; eauto].
    rewrite Ha; simpl. split; eauto.
Qed.

Lemma UpdateOrderPnL_audit_fault (f : Faults) (w : World) (orderID : string) (p : Q) :
  fail_audit f = true ->
  let '(r, w') := UpdateOrderPnL f orderID p w in
  store w' = store w /\ exists e, r = Err e.
Proof.
  intros Ha. unfold UpdateOrderPnL, GetByOrderID, BeginTransaction,
    tx_create_audit, RollbackTransaction, CommitTransaction, bind, try_, getStore, ret, fail;
    simpl.
  destruct (fail_query f); simpl; [split; eauto|].
  destruct (findOrder orderID (orders (store w))) as [order|] eqn:Hf; simpl; [|split; eauto].
  destruct (fail_begin f); simpl; [split; eauto|].
  destruct (tx_update _ _ _ _); simpl; [|split; eauto].
  rewrite Ha; simpl. split; eauto.
Qed.

(** The BeforeCreate hook keeps the trading facts of the order. *)
Lemma OrderBeforeCreate_fields (o o' : Order) :
  OrderBeforeCreate o = OK o' ->
  OrderID o' = OrderID o /\ Symbol o' = Symbol o /\ Side o' = Side o /\
  OrderPrice o' = OrderPrice o /\ Quantity o' = Quantity o /\
  TakeProfitPrice o' = TakeProfitPrice o /\ StopLossPrice o' = StopLossPrice o.
Proof.
  unfold OrderBeforeCreate. destruct_ifs; try discriminate;
    destruct (validatePrices _); intros H; inversion H; subst; simpl; repeat split.
Qed.

(** C1 (amended): when the audit INSERT fails, UpdateOrderStatus,
    UpdateOrderResult and UpdateOrderPnL roll their transaction back: the
    store is left as it was and an error is returned (or nothing had to
    change).  CreateOrder runs no transaction: with the audit INSERT
    failing it either fails before writing anything, or it keeps the
    inserted order row, writes no audit row, prints a warning and reports
    success. *)
Theorem audit_failure_rollback_scope (f : Faults) (w : World) :
  fail_audit f = true ->
  (forall orderID statusName,
     let '(r, w') := UpdateOrderStatus f orderID statusName w in
     store w' = store w /\
     ((exists e, r = Err e) \/
      (r = OK tt /\ exists order status,
         findOrder orderID (orders (store w)) = Some order /\
         find (fun s => String.eqb (StatusName s) statusName) (statuses (store w)) = Some status /\
         OrderStatusID order = StatusID status))) /\
  (forall orderID result,
     let '(r, w') := UpdateOrderResult f orderID result w in
     store w' = store w /\
     ((exists e, r = Err e) \/
      (r = OK tt /\ exists order, findOrder orderID (orders (store w)) = Some order /\
                                  Result_ order = result))) /\
  (forall orderID p,
     let '(r, w') := UpdateOrderPnL f orderID p w in
     store w' = store w /\ exists e, r = Err e) /\
  (forall o,
     let '(r, w') := CreateOrder f o w in
     ((exists e, r = Err e) /\ w' = w) \/
     (r = OK tt /\
      (exists o', orders (store w') = (orders (store w) ++ [o'])%list /\ OrderID o' = OrderID o) /\
      audits (store w') = audits (store w) /\
      exists e, logs w' = (logs w ++ [("Warning: failed to create audit record: %v", e)])%list)).
Proof.
  intros Ha. split; [|split; [|split]].
  - intros. apply UpdateOrderStatus_audit_fault. exact Ha.
  - intros. apply UpdateOrderResult_audit_fault. exact Ha.
  - intros. apply UpdateOrderPnL_audit_fault. exact Ha.
  - intros o. pose proof (CreateOrder_effect f o w) as H.
    destruct (CreateOrder f o w) as [r w'].
    destruct H as [H|[Hr [Hv [o' [Hb [Ho [_ [_ [_ Haud]]]]]]]]]; [left; exact H|].
    right. destruct (Haud Ha) as [Hau Hlog]. split; [exact Hr|].
    split; [|split; [exact Hau|exact Hlog]].
    eexists. split; [exact Ho|].
    apply OrderBeforeCreate_fields in Hb. simpl. destruct Hb as [-> _]. reflexivity.
Qed.

Lemma audit_failure_rollback_scope_witness :
  fail_audit auditFault = true /\
  (let '(r, w') := UpdateOrderResult auditFault "ord-1" OrderResultDone world_c1 in
   store w' = store world_c1 /\
   ((exists e, r = Err e) \/
    (r = OK tt /\ exists order, findOrder "ord-1" (orders (store world_c1)) = Some order /\
                                Result_ order = OrderResultDone))).
Proof.
  split; [reflexivity|].
  exact (proj1 (proj2 (audit_failure_rollback_scope auditFault world_c1 eq_refl))
           "ord-1" OrderResultDone).
Defined.

(** C1, counterexample: a Buy order whose audit INSERT fails.  CreateOrder
    reports success and the order row stays stored, without audit. *)
Lemma audit_failure_does_not_roll_back_creation :
  let '(r, w') := CreateOrder auditFault order_c1 world_c1 in
  r = OK tt /\ List.length (orders (store w')) = 1%nat /\ audits (store w') = [].
Proof. vm_compute. repeat split. Qed.

Lemma filter_pending_nil (l : list Order) :
  (forall o, In o l -> Result_ o <> OrderResultPending) ->
  filter (fun o => String.eqb (Result_ o) OrderResultPending) l = [].
Proof.
  induction l as [|a l IH]; intros H; simpl; [reflexivity|].
  destruct (String.eqb (Result_ a) OrderResultPending) eqn:E.
  - apply String.eqb_eq in E. exfalso. apply (H a); [left; reflexivity|exact E].
  - apply IH. intros o Ho. apply H. right. exact Ho.
Qed.

(** C2, first half: with the position active and no Pending order stored,
    the Reconciler reports an active position and changes nothing. *)
Lemma reconcile_noop_without_pending (f : Faults) (ps : list string) (w : World) :
  fail_query f = false -> ps <> [] ->
  (forall o, In o (orders (store w)) -> Result_ o <> OrderResultPending) ->
  let '(r, w') := isPostionActive f (OK ps) w in
  r = OK (true, None) /\ store w' = store w /\ orderPlaced w' = orderPlaced w.
Proof.
  intros Hq Hps Hnp.
  unfold isPostionActive, GetOrdersByResult, GetByResult, call, logf, logln, bind, try_,
    getStore, ret, fail; simpl.
  rewrite Hq; simpl. rewrite (filter_pending_nil _ Hnp). simpl.
  destruct ps as [|p ps]; [congruence|]. simpl. repeat split.
Qed.

(** What a successful UpdateOrderResult did to the orders table. *)
Lemma UpdateOrderResult_ok (f : Faults) (w : World) (orderID result : string) :
  let '(r, w') := UpdateOrderResult f orderID result w in
  r = OK tt ->
  (exists order, findOrder orderID (orders (store w)) = Some order /\
                 Result_ order = result /\ store w' = store w) \/
  orders (store w') =
    map (fun o => if String.eqb (OrderID o) orderID then set_Result o result else o)
        (orders (store w)).
Proof.
  unfold UpdateOrderResult, GetByOrderID, BeginTransaction, tx_update, tx_create_audit,
    RollbackTransaction, CommitTransaction, putStore, bind, try_, getStore, ret, fail; simpl.
  destruct (fail_query f); simpl; [discriminate|].
  destruct (findOrder orderID (orders (store w))) as [order|] eqn:Hf; simpl; [|discriminate].
  destruct (String.eqb (Result_ order) result) eqn:Hr; simpl.
  - intros _. left. exists order. repeat split. apply String.eqb_eq. exact Hr.
  - destruct (fail_begin f); simpl; [discriminate|].
    destruct (fail_update f); simpl; [discriminate|].
    destruct (fail_audit f); simpl; [discriminate|].
    destruct (AuditBeforeCreate _); simpl; [|discriminate].
    destruct (fail_commit f); simpl; [discriminate|].
    intros _. right. reflexivity.
Qed.

Lemma findOrder_unique (l : list Order) (o o' : Order) :
  NoDup (map OrderID l) -> In o l -> findOrder (OrderID o) l = Some o' -> o' = o.
Proof.
  induction l as [|a l IH]; simpl; [contradiction|].
  intros Hnd Hin Hf. inversion Hnd as [|x y Hnotin Hnd']; subst.
  destruct (String.eqb (OrderID a) (OrderID o)) eqn:E.
  - apply String.eqb_eq in E. inversion Hf; subst.
    destruct Hin as [->|Hin]; [reflexivity|].
    exfalso. apply Hnotin. rewrite E. apply in_map. exact Hin.
  - destruct Hin as [->|Hin].
    + rewrite String.eqb_refl in E. discriminate.
    + apply IH; assumption.
Qed.

Lemma in_filter_pending (l : list Order) (o : Order) :
  In o (filter (fun o => String.eqb (Result_ o) OrderResultPending) l) <->
  In o l /\ Result_ o = OrderResultPending.
Proof. rewrite filter_In. rewrite String.eqb_eq. tauto. Qed.

(** After a run of the Reconciler that reported an active position, no
    order is Pending any more (order ids being unique, as the unique index
    on order_id makes them, and at most one order being open). *)
Lemma reconcile_clears_pending (f : Faults) (ps : list string) (w : World) :
  NoDup (map OrderID (orders (store w))) ->
  (List.length (filter (fun o => String.eqb (Result_ o) OrderResultPending)
                       (orders (store w))) <= 1)%nat ->
  let '(r, w') := isPostionActive f (OK ps) w in
  r = OK (true, None) ->
  forall o, In o (orders (store w')) -> Result_ o <> OrderResultPending.
Proof.
  intros Hnd Hle.
  unfold isPostionActive, GetOrdersByResult, GetByResult, call, logf, logln, bind, try_,
    getStore, ret, fail; simpl.
  destruct (fail_query f); simpl; [discriminate|].
  remember (filter (fun o => String.eqb (Result_ o) OrderResultPending) (orders (store w)))
    as pend eqn:Hpend.
  destruct (Nat.ltb 0 (List.length ps)); simpl; [|discriminate].
  destruct pend as [|p [|p' rest]]; simpl.
  - intros _ o Ho Hp. assert (In o []) as Hin.
    { rewrite Hpend. apply in_filter_pending. split; assumption. }
    exact Hin.
  - pose proof (UpdateOrderResult_ok f
      {| store := store w;
         logs := (logs w ++ [("Position Status: %s", String.concat " " ps)])%list;
         orderPlaced := orderPlaced w; calls := (calls w ++ ["GetPositions"])%list |}
      (OrderID p) OrderResultDone) as Hu.
    destruct (UpdateOrderResult f (OrderID p) OrderResultDone _) as [[[]|e] w1]; simpl;
      [|discriminate].
    intros _. simpl in Hu.
    assert (Hp : In p (orders (store w)) /\ Result_ p = OrderResultPending).
    { apply in_filter_pending. rewrite <- Hpend. left. reflexivity. }
    destruct (Hu eq_refl) as [[order [Hf [Hr _]]]|Ho].
    + apply findOrder_unique in Hf; [|exact Hnd|exact (proj1 Hp)]. subst order.
      rewrite (proj2 Hp) in Hr. discriminate.
    + intros o Hin Hpo. rewrite Ho in Hin. apply in_map_iff in Hin.
      destruct Hin as [o0 [Heq Hin0]].
      destruct (String.eqb (OrderID o0) (OrderID p)) eqn:E.
      * subst o. simpl in Hpo. discriminate.
      * subst o0. assert (Hop : In o [p]).
        { rewrite Hpend. apply in_filter_pending. split; assumption. }
        destruct Hop as [->|[]]. rewrite String.eqb_refl in E. discriminate.
  - simpl in Hle. lia.
Qed.

(** C2: running the Reconciler while the exchange position is active and
    no local order is Pending any longer (in particular right after a run
    that advanced the open order to Done) leaves the store as it is: no
    Result changes and no audit row is written; it reports an active
    position. *)
Theorem reconcile_idempotent (f1 f2 : Faults) (ps ps2 : list string) (w : World) :
  fail_query f2 = false -> ps2 <> [] ->
  ((forall o, In o (orders (store w)) -> Result_ o <> OrderResultPending) ->
   let '(r, w') := isPostionActive f2 (OK ps2) w in
   r = OK (true, None) /\ store w' = store w /\ orderPlaced w' = orderPlaced w) /\
  (NoDup (map OrderID (orders (store w))) ->
   (List.length (filter (fun o => String.eqb (Result_ o) OrderResultPending)
                        (orders (store w))) <= 1)%nat ->
   fst (isPostionActive f1 (OK ps) w) = OK (true, None) ->
   let w1 := snd (isPostionActive f1 (OK ps) w) in
   let '(r2, w2) := isPostionActive f2 (OK ps2) w1 in
   r2 = OK (true, None) /\ store w2 = store w1 /\ orderPlaced w2 = orderPlaced w1).
Proof.
  intros Hq Hps. split.
  - intros Hnp. apply reconcile_noop_without_pending; assumption.
  - intros Hnd Hle Hr1. simpl.
    pose proof (reconcile_clears_pending f1 ps w Hnd Hle) as Hc.
    destruct (isPostionActive f1 (OK ps) w) as [r1 w1]. simpl in *.
    apply reconcile_noop_without_pending; auto.
Qed.

Lemma reconcile_idempotent_witness :
  fst (isPostionActive noFaults (OK ["DOGEUSDT"]) world_c2) = OK (true, None) /\
  (let w1 := snd (isPostionActive noFaults (OK ["DOGEUSDT"]) world_c2) in
   let '(r2, w2) := isPostionActive noFaults (OK ["DOGEUSDT"]) w1 in
   r2 = OK (true, None) /\ store w2 = store w1 /\ orderPlaced w2 = orderPlaced w1).
Proof.
  split; [vm_compute; reflexivity|].
  apply (proj2 (reconcile_idempotent noFaults noFaults ["DOGEUSDT"] ["DOGEUSDT"] world_c2
                  eq_refl ltac:(discriminate))).
  - vm_compute. constructor; [intros []|constructor].
  - vm_compute. lia.
  - vm_compute. reflexivity.
Defined.

(** C3 (amended): the quantity is the balance divided by the price, not
    rounded; a price <= 0 makes either placement function return the empty
    id before any call to the exchange, and a quantity <= 0 (a balance
    query that fails counts as 0) makes it return the empty id after the
    balance query alone: no placement call, nothing stored. *)
Theorem quantity_sizing_and_rejection (env : Env) (p : Q) (w : World) :
  ((0 < p)%Q -> forall b, usdtBalance env = OK b ->
     fst (calculateMaxQuantity env p w) = OK (b / p)) /\
  ((p <= 0)%Q ->
     (let '(r, w') := placeLongOrder env p w in
      r = OK "" /\ calls w' = calls w /\ store w' = store w /\ orderPlaced w' = orderPlaced w) /\
     (let '(r, w') := placeShortOrder env p w in
      r = OK "" /\ calls w' = calls w /\ store w' = store w /\ orderPlaced w' = orderPlaced w)) /\
  ((0 < p)%Q -> processorSet env = true ->
   (forall b, usdtBalance env = OK b -> (b / p <= 0)%Q) ->
     (let '(r, w') := placeLongOrder env p w in
      r = OK "" /\ calls w' = (calls w ++ ["GetUSDTBalance"])%list /\
      store w' = store w /\ orderPlaced w' = orderPlaced w) /\
     (let '(r, w') := placeShortOrder env p w in
      r = OK "" /\ calls w' = (calls w ++ ["GetUSDTBalance"])%list /\
      store w' = store w /\ orderPlaced w' = orderPlaced w)).
Proof.
  split; [|split].
  - intros Hp b Hb. unfold calculateMaxQuantity, bind, call, logf, ret; simpl.
    assert (qle p 0 = false) as ->.
    { destruct (qle p 0) eqn:E; [|reflexivity].
      apply Qle_bool_iff in E. exfalso. apply (Qlt_not_le _ _ Hp E). }
    rewrite Hb. reflexivity.
  - intros Hp. apply qle_true in Hp.
    unfold placeLongOrder, placeShortOrder, bind, logln, logf, ret; simpl.
    destruct (processorSet env); simpl; rewrite ?Hp; simpl; repeat split.
  - intros Hp Hset Hq.
    assert (qle p 0 = false) as Hp'.
    { destruct (qle p 0) eqn:E; [|reflexivity].
      apply Qle_bool_iff in E. exfalso. apply (Qlt_not_le _ _ Hp E). }
    unfold placeLongOrder, placeShortOrder, calculateMaxQuantity, bind, call, logln, logf,
      ret; simpl.
    rewrite Hset, Hp'; simpl.
    destruct (usdtBalance env) as [b|e] eqn:Hb; simpl.
    + rewrite (qle_true _ _ (Hq b eq_refl)). simpl. repeat split.
    + repeat split.
Qed.

Lemma quantity_sizing_and_rejection_witness :
  fst (calculateMaxQuantity env_c3 3 world_c1) = OK (10 / 3).
Proof.
  exact (proj1 (quantity_sizing_and_rejection env_c3 3 world_c1)
           ltac:(unfold Qlt; simpl; lia) 10 eq_refl).
Defined.

(** C3, counterexample: with 10 USDT at price 3 the quantity is 10/3, not
    floor(10/3) = 3. *)
Lemma quantity_is_not_floored :
  fst (calculateMaxQuantity env_c3 3 world_c1) = OK (10 # 3) /\
  ~ (10 # 3 == inject_Z (Qfloor (10 # 3)))%Q.
Proof.
  split; [vm_compute; reflexivity|].
  unfold Qeq; simpl. discriminate.
Qed.

Lemma extract_panics_72_73 (cs : list Candle) :
  (List.length cs = 72 \/ List.length cs = 73)%nat ->
  extractCandlesForChecks cs = Panic "runtime error: slice bounds out of range".
Proof.
  intros H. unfold extractCandlesForChecks, go_slice.
  destruct H as [-> | ->]; reflexivity.
Qed.

(** C4 (code bug): the guard of extractCandlesForChecks lets 72 and 73
    candles through while the slice below it needs 74, so a cycle that sees
    no open position and fetches 72 or 73 candles panics on the slice
    taCandlesticks[len-74 : len-2] instead of failing with an error. *)
Theorem cycle_panics_on_72_or_73_candles (env0 e1 e2 e3 : Env) (raw : list Candle) (w : World) :
  processorSet env0 = true -> fail_query (faults env0) = false ->
  (List.length raw = 72 \/ List.length raw = 73)%nat ->
  extractCandlesForChecks (rev raw) = Panic "runtime error: slice bounds out of range" /\
  fst (executeTradingCycle env0 (OK []) (OK raw) e1 e2 e3 w) =
    OK (Panicked "runtime error: slice bounds out of range").
Proof.
  intros Hp Hq Hlen.
  assert (He : extractCandlesForChecks (rev raw) =
               Panic "runtime error: slice bounds out of range").
  { apply extract_panics_72_73. rewrite length_rev. exact Hlen. }
  split; [exact He|].
  unfold executeTradingCycle, isPostionActive, GetOrdersByResult, GetByResult,
    fetchLast1000Candles, setOrderPlaced, call, logf, logln, bind, try_, getStore, ret, fail.
  rewrite Hp, Hq. simpl. rewrite He. reflexivity.
Qed.

Lemma cycle_panics_on_72_or_73_candles_witness :
  fst (executeTradingCycle env_c3 (OK []) (OK (repeat candle0 72)) env_c3 env_c3 env_c3
         world_c1) = OK (Panicked "runtime error: slice bounds out of range").
Proof.
  exact (proj2 (cycle_panics_on_72_or_73_candles env_c3 env_c3 env_c3 env_c3
                  (repeat candle0 72) world_c1 eq_refl eq_refl (or_introl eq_refl))).
Defined.

(** The SHORT side behaves as the spec says: 61% confirms, 60% does not. *)
Example red_ratio_61_confirms :
  volumeConfirmed (calculateRedCandlesAverageVolume series_red_61) (nth 10 series_red_61 candle0)
  = true.
Proof. vm_compute. reflexivity. Qed.

Example red_ratio_60_does_not_confirm :
  volumeConfirmed (calculateRedCandlesAverageVolume series_red_60) (nth 10 series_red_60 candle0)
  = false.
Proof. vm_compute. reflexivity. Qed.

Example green_ratio_61_does_not_confirm :
  volumeConfirmed (calculateGreenCandlesAverageVolume series_green_61)
    (nth 10 series_green_61 candle0) = false.
Proof. vm_compute. reflexivity. Qed.

(** C5 (code bug): calculateGreenCandlesAverageVolume adds the second
    loop's volumes to the green accumulator and divides by a general volume
    that stays 0.0, so its ratio is +Inf, -Inf or NaN; the LONG volume
    confirmation therefore never passes, whatever the candles. *)
Theorem long_volume_confirmation_never_passes (candles : list Candle) (current : Candle) :
  volumeConfirmed (calculateGreenCandlesAverageVolume candles) current = false.
Proof.
  unfold calculateGreenCandlesAverageVolume.
  destruct (green_loop _ _ _ _) as [g n].
  destruct (green_general_loop _ _ _ _ _) as [g' m].
  unfold fdiv, volumeConfirmed. simpl.
  destruct (qlt 0 g'); simpl; [reflexivity|].
  destruct (qlt g' 0); reflexivity.
Qed.

Lemma wall_support_fold (l : list Candle) (w0 s0 : Q) :
  let '(w, s) := fold_left wall_support_step l (w0, s0) in
  ((w == w0)%Q \/ exists c, In c l /\ (w == High c)%Q) /\ (w0 <= w)%Q /\
  (forall c, In c l -> (High c <= w)%Q) /\
  ((s == s0)%Q \/ exists c, In c l /\ (s == Low c)%Q) /\ (s <= s0)%Q /\
  (forall c, In c l -> (s <= Low c)%Q).
Proof.
  revert w0 s0. induction l as [|c l IH]; intros w0 s0; simpl.
  - repeat split; try (left; reflexivity); try apply Qle_refl; intros c [].
  - set (w1 := if qlt w0 (High c) then High c else w0).
    set (s1 := if qlt (Low c) s0 then Low c else s0).
    assert (Hw1 : (w0 <= w1)%Q /\ (High c <= w1)%Q /\ (w1 == w0 \/ w1 == High c)%Q).
    { unfold w1. destruct (qlt w0 (High c)) eqn:E.
      - apply qlt_true in E. repeat split; [apply Qlt_le_weak; exact E|apply Qle_refl|].
        right. reflexivity.
      - unfold qlt in E. apply negb_false_iff, Qle_bool_iff in E.
        repeat split; [apply Qle_refl|exact E|]. left. reflexivity. }
    assert (Hs1 : (s1 <= s0)%Q /\ (s1 <= Low c)%Q /\ (s1 == s0 \/ s1 == Low c)%Q).
    { unfold s1. destruct (qlt (Low c) s0) eqn:E.
      - apply qlt_true in E. repeat split; [apply Qlt_le_weak; exact E|apply Qle_refl|].
        right. reflexivity.
      - unfold qlt in E. apply negb_false_iff, Qle_bool_iff in E.
        repeat split; [apply Qle_refl|exact E|]. left. reflexivity. }
    specialize (IH w1 s1). destruct (fold_left _ l (w1, s1)) as [w s].
    destruct IH as [Hwe [Hwle [Hwall [Hse [Hsle Hsall]]]]].
    destruct Hw1 as [Hw1a [Hw1b Hw1c]]. destruct Hs1 as [Hs1a [Hs1b Hs1c]].
    split; [|split; [|split; [|split; [|split]]]].
    + destruct Hwe as [Hwe|[c' [Hc' Hwe]]].
      * destruct Hw1c as [H|H]; [left; rewrite Hwe; exact H|].
        right. exists c. split; [left; reflexivity|]. rewrite Hwe. exact H.
      * right. exists c'. split; [right; exact Hc'|exact Hwe].
    + apply (Qle_trans _ w1); assumption.
    + intros c' [<-|Hc']; [apply (Qle_trans _ w1); assumption|apply Hwall; exact Hc'].
    + destruct Hse as [Hse|[c' [Hc' Hse]]].
      * destruct Hs1c as [H|H]; [left; rewrite Hse; exact H|].
        right. exists c. split; [left; reflexivity|]. rewrite Hse. exact H.
      * right. exists c'. split; [right; exact Hc'|exact Hse].
    + apply (Qle_trans _ s1); assumption.
    + intros c' [<-|Hc']; [apply (Qle_trans _ s1); assumption|apply Hsall; exact Hc'].
Qed.

Lemma StronglySorted_app {A} (R : A -> A -> Prop) (l1 l2 : list A) :
  StronglySorted R l1 -> StronglySorted R l2 ->
  (forall x y, In x l1 -> In y l2 -> R x y) -> StronglySorted R (l1 ++ l2).
Proof.
  induction l1 as [|a l1 IH]; simpl; intros H1 H2 H12; [exact H2|].
  inversion H1 as [|x y Hs Hf]; subst. constructor.
  - apply IH; auto.
  - apply Forall_app. split; [exact Hf|].
    apply Forall_forall. intros y Hy. apply H12; [left; reflexivity|exact Hy].
Qed.

Lemma StronglySorted_rev {A} (R : A -> A -> Prop) (l : list A) :
  StronglySorted R l -> StronglySorted (fun a b => R b a) (rev l).
Proof.
  induction l as [|a l IH]; simpl; intros H; [constructor|].
  inversion H as [|x y Hs Hf]; subst.
  apply StronglySorted_app.
  - apply IH. exact Hs.
  - repeat constructor.
  - intros x y Hx [<-|[]]. rewrite Forall_forall in Hf. apply Hf. apply in_rev. exact Hx.
Qed.

Lemma fetchLast1000Candles_ok (raw : list Candle) (w : World) :
  exists w', fetchLast1000Candles (OK raw) w = (OK (Ret (rev raw)), w').
Proof. eexists. reflexivity. Qed.

(** C6: on the series the exchange collaborator answers (newest first, as
    BybitExchange.FetchLastCandles returns it), fetchLast1000Candles produces
    the chronologically ascending series [cs]; the window is the 72 candles
    just before the last two of [cs]; the wall is the maximum high and the
    support the minimum low of that window; and the breakout test compares
    the close of the second-to-last candle of [cs] with them: a wall break iff
    close > wall, else a support break iff close < support. *)
Theorem wall_support_breakout (raw : list Candle) (w : World) :
  (74 <= List.length raw)%nat ->
  let cs := rev raw in
  let n := List.length cs in
  let window := firstn 72 (skipn (n - 74) cs) in
  (forall c, In c window -> 0 <= High c)%Q ->
  (forall c, In c window -> Low c <= MaxFloat64)%Q ->
  (exists w', fetchLast1000Candles (OK raw) w = (OK (Ret cs), w')) /\
  (StronglySorted (fun a b => Timestamp b < Timestamp a)%Z raw ->
   StronglySorted (fun a b => Timestamp a < Timestamp b)%Z cs) /\
  List.length window = 72%nat /\
  (exists pre closed last, cs = (pre ++ window ++ [closed; last])%list /\
     go_index cs (Z.of_nat n - 2) = Ret closed /\
     exists wall support,
       extractCandlesForChecks cs = Ret (OK (window, wall, support)) /\
       (exists c, In c window /\ wall == High c)%Q /\
       (forall c, In c window -> High c <= wall)%Q /\
       (exists c, In c window /\ support == Low c)%Q /\
       (forall c, In c window -> support <= Low c)%Q /\
       checkWallAndSupportBreak closed window wall support =
         (qlt wall (Close closed),
          negb (qlt wall (Close closed)) && qlt (Close closed) support)).
Proof.
  intros Hlen cs n window Hhi Hlo.
  assert (Hn : n = List.length raw) by (unfold n, cs; apply length_rev).
  assert (Hsk : List.length (skipn (n - 74) cs) = 74%nat)
    by (rewrite length_skipn; fold n; lia).
  assert (Hwl : List.length window = 72%nat)
    by (unfold window; rewrite length_firstn; lia).
  split; [apply fetchLast1000Candles_ok|].
  split; [intros Hs; apply (StronglySorted_rev _ _ Hs)|].
  split; [exact Hwl|].
  assert (Hrest : List.length (skipn 72 (skipn (n - 74) cs)) = 2%nat)
    by (rewrite length_skipn; lia).
  destruct (skipn 72 (skipn (n - 74) cs)) as [|closed [|last [|x r]]] eqn:Er;
    simpl in Hrest; try discriminate.
  assert (Hcs : cs = (firstn (n - 74) cs ++ window ++ [closed; last])%list).
  { rewrite <- Er. unfold window. rewrite firstn_skipn. rewrite firstn_skipn. reflexivity. }
  assert (Hpre : List.length (firstn (n - 74) cs) = (n - 74)%nat)
    by (rewrite length_firstn; fold n; lia).
  exists (firstn (n - 74) cs), closed, last. split; [exact Hcs|].
  split.
  { unfold go_index. replace (Z.of_nat n - 2 <? 0)%Z with false by lia.
    rewrite Hcs. rewrite nth_error_app2 by lia. rewrite Hpre.
    rewrite nth_error_app2 by lia. rewrite Hwl.
    replace (Z.to_nat (Z.of_nat n - 2) - (n - 74) - 72)%nat with 0%nat by lia.
    reflexivity. }
  assert (Hne : window <> []) by (intros E; rewrite E in Hwl; discriminate).
  pose proof (wall_support_fold window 0 MaxFloat64) as Hf.
  destruct (fold_left wall_support_step window (0, MaxFloat64)) as [wall support] eqn:Ef.
  destruct Hf as [Hwe [Hw0 [Hwall [Hse [Hs0 Hsall]]]]].
  exists wall, support. split.
  { unfold extractCandlesForChecks. change (Datatypes.length cs) with n.
    replace (Z.of_nat n <? 72)%Z with false by lia.
    unfold go_slice. change (Datatypes.length cs) with n.
    replace (Z.to_nat (Z.of_nat n - 2 - (Z.of_nat n - 74))) with 72%nat by lia.
    replace (Z.to_nat (Z.of_nat n - 74)) with (n - 74)%nat by lia.
    fold window.
    destruct (_ || _ || _)%bool eqn:Ec.
    - exfalso. rewrite !orb_true_iff, !Z.ltb_lt in Ec. lia.
    - cbv beta iota. rewrite Ef. reflexivity. }
  destruct window as [|c0 wr] eqn:Ew; [congruence|].
  split.
  { destruct Hwe as [Hwe|Hwe]; [|exact Hwe].
    exists c0. split; [left; reflexivity|].
    apply Qle_antisym; [|apply Hwall; left; reflexivity].
    rewrite Hwe. apply Hhi. left; reflexivity. }
  split; [exact Hwall|].
  split.
  { destruct Hse as [Hse|Hse]; [|exact Hse].
    exists c0. split; [left; reflexivity|].
    apply Qle_antisym; [apply Hsall; left; reflexivity|].
    rewrite Hse. apply Hlo. left; reflexivity. }
  split; [exact Hsall|].
  unfold checkWallAndSupportBreak. rewrite Hwl. simpl.
  destruct (qlt wall (Close closed)); [reflexivity|simpl; destruct (qlt (Close closed) support); reflexivity].
Qed.

Lemma wall_support_breakout_witness :
  (74 <= List.length candles_74)%nat /\
  exists wall support,
    extractCandlesForChecks (rev candles_74) =
      Ret (OK (firstn 72 (skipn 0 (rev candles_74)), wall, support)) /\
    (wall == 2)%Q /\ (support == 1)%Q.
Proof.
  assert (Hl : (74 <= List.length candles_74)%nat) by (vm_compute; lia).
  assert (Hin : forall c, In c (firstn 72 (skipn (List.length (rev candles_74) - 74)
                                               (rev candles_74))) ->
                c = mkCandle 0 1 2 1 1 1)
    by (intros c Hc; apply (repeat_spec 72); exact Hc).
  destruct (wall_support_breakout candles_74 world_c1 Hl) as
    [_ [_ [_ [pre [closed [last [_ [_ [wall [support [He [[c [Hc Hw]] [_ [[d [Hd Hs]] _]]]]]]]]]]]]]];
    [intros c Hc; rewrite (Hin c Hc); apply Qle_bool_imp_le; reflexivity
    |intros c Hc; rewrite (Hin c Hc); apply Qle_bool_imp_le; reflexivity|].
  split; [exact Hl|]. exists wall, support. split; [exact He|].
  rewrite (Hin c Hc) in Hw. rewrite (Hin d Hd) in Hs. split; [exact Hw|exact Hs].
Defined.


Lemma createOrderFromBybitResponse_effect (f : Faults) (resp : OrderResponse)
  (tp q t s : Q) (w : World) :
  let '(r, w') := createOrderFromBybitResponse f resp tp q t s w in
  store w' = store w /\ orderPlaced w' = orderPlaced w /\ calls w' = calls w /\
  (exists l, logs w' = (logs w ++ l)%list /\ forall m e, In (m, e) l -> m = "Stato Bybit '%s' non mappato, uso 'New' come default") /\
  forall o, r = OK o -> OrderID o = RespOrderID resp /\ Side o = OrderSideTypeBuy /\
    OrderPrice o = tp /\ TakeProfitPrice o = Some t.
Proof.
  unfold createOrderFromBybitResponse, mapBybitStatusToOrderStatusID, GetByStatusName,
    try_, bind, ret, fail, logf, getStore.
  destruct (existsb _ bybitStatuses); simpl;
  destruct (fail_query f); simpl;
  try destruct (find _ _); simpl;
  (split; [reflexivity|split; [reflexivity|split; [reflexivity|split; [|intros o0 Ho; try discriminate; inversion Ho; subst; repeat split]]]]);
  solve [ exists []; split; [rewrite app_nil_r; reflexivity| intros m e []]
        | eexists; split; [reflexivity|intros m e [H|[]]; inversion H; reflexivity] ].
Qed.
Arguments createOrderFromBybitResponse : simpl never.

Ltac place_cases :=
  unfold placeLongOrder, placeShortOrder, calculateMaxQuantity, saveOrderToDatabase,
    bind, try_, logln, logf, call, ret, fail, setOrderPlaced;
  repeat (simpl; match goal with
  | |- context [if ?b then _ else _] => destruct b eqn:?
  | |- context [match usdtBalance ?e with _ => _ end] => destruct (usdtBalance e) eqn:?
  | |- context [match placeResp ?e with _ => _ end] => destruct (placeResp e) eqn:?
  | |- context [createOrderFromBybitResponse ?f ?r ?a ?b ?c ?d ?w0] =>
      let H := fresh "Hcr" in
      pose proof (createOrderFromBybitResponse_effect f r a b c d w0) as H;
      destruct (createOrderFromBybitResponse f r a b c d w0) as [[?o|?e] ?w1]
  | |- context [CreateOrder ?f ?o ?w0] =>
      let H := fresh "Hco" in
      pose proof (CreateOrder_effect f o w0) as H;
      destruct (CreateOrder f o w0) as [[[]|?e] ?w2]
  end).

Lemma validateOrder_OrderID (o : Order) : validateOrder o = None -> OrderID o <> "".
Proof. unfold validateOrder. intros H E. rewrite E in H. discriminate. Qed.

Ltac place_hyps :=
  repeat match goal with
  | H : _ /\ _ |- _ => destruct H
  | H : exists _, _ |- _ => destruct H
  | H : _ \/ _ |- _ => destruct H
  | H : forall o, OK ?x = OK o -> _ |- _ => specialize (H x eq_refl)
  end; subst; cbn in *.

Ltac calls_goal :=
  repeat match goal with H : calls _ = _ |- _ => rewrite H end;
  rewrite <- ?app_assoc; simpl;
  first [left; reflexivity | right; left; reflexivity | right; right; reflexivity].

Lemma placeLongOrder_effect (env : Env) (price : Q) (w : World) :
  let '(r, w') := placeLongOrder env price w in
  exists id, r = OK id /\
  (calls w' = calls w \/ calls w' = (calls w ++ ["GetUSDTBalance"])%list \/
   calls w' = (calls w ++ ["GetUSDTBalance"; "PlaceLongOrder"])%list) /\
  (id = "" -> store w' = store w /\ orderPlaced w' = orderPlaced w).
Proof.
  place_cases.
  all: place_hyps.
  all: eexists; split; [reflexivity|]; split; [calls_goal|].
  all: try (intros _; repeat match goal with H : _ = _ |- _ => rewrite H end; split; reflexivity).
  all: intros Hid; exfalso; first [discriminate | eapply validateOrder_OrderID; [eassumption|congruence]].
Qed.

Lemma placeShortOrder_effect (env : Env) (price : Q) (w : World) :
  let '(r, w') := placeShortOrder env price w in
  exists id, r = OK id /\
  (calls w' = calls w \/ calls w' = (calls w ++ ["GetUSDTBalance"])%list \/
   calls w' = (calls w ++ ["GetUSDTBalance"; "PlaceShortOrder"])%list) /\
  (id = "" -> store w' = store w /\ orderPlaced w' = orderPlaced w).
Proof.
  place_cases.
  all: place_hyps.
  all: eexists; split; [reflexivity|]; split; [calls_goal|].
  all: try (intros _; repeat match goal with H : _ = _ |- _ => rewrite H end; split; reflexivity).
  all: intros Hid; exfalso; first [discriminate | eapply validateOrder_OrderID; [eassumption|congruence]].
Qed.

Lemma attempt_calls_count (x y : string) (l : list string) :
  x <> "GetUSDTBalance" -> attempt_calls y l -> (count_calls x l <= 1)%nat.
Proof.
  intros Hx [E|[E|E]]; subst l; unfold count_calls; simpl;
  destruct (String.eqb x "GetUSDTBalance") eqn:Ex;
  try (apply String.eqb_eq in Ex; congruence);
  try destruct (String.eqb x y); simpl; lia.
Qed.

Lemma placeWithRetry_shape (place : Env -> Q -> M string) (exchangeCall : string)
  (Hplace : forall env price w, let '(r, w') := place env price w in
     exists id, r = OK id /\
     (exists l, calls w' = (calls w ++ l)%list /\ attempt_calls exchangeCall l) /\
     (id = "" -> store w' = store w /\ orderPlaced w' = orderPlaced w))
  (msg1 msg2 msg3 : string) (e1 e2 e3 : Env) (price : Q) (w : World) :
  let body :=
    orderID <- place e1 price ;;
    if String.eqb orderID "" then
      logln msg1 ;;;
      call "Sleep 1s" ;;;
      orderID <- place e2 price ;;
      if String.eqb orderID "" then
        logln msg2 ;;;
        logln "Trying last time" ;;;
        call "Sleep 1s" ;;;
        orderID <- place e3 price ;;
        if String.eqb orderID "" then
          logln msg3 ;;; ret orderID
        else ret orderID
      else ret orderID
    else ret orderID in
  let '(r, w') := body w in
  exists id l1 l2 l3, r = OK id /\
    attempt_calls exchangeCall l1 /\ attempt_calls exchangeCall l2 /\
    attempt_calls exchangeCall l3 /\
    (calls w' = (calls w ++ l1)%list \/
     calls w' = (calls w ++ l1 ++ ["Sleep 1s"] ++ l2)%list \/
     calls w' = (calls w ++ l1 ++ ["Sleep 1s"] ++ l2 ++ ["Sleep 1s"] ++ l3)%list) /\
    (id = "" ->
       calls w' = (calls w ++ l1 ++ ["Sleep 1s"] ++ l2 ++ ["Sleep 1s"] ++ l3)%list /\
       store w' = store w /\ orderPlaced w' = orderPlaced w).
Proof.
  intros body. unfold body, bind, logln, logf, call, ret.
  pose proof (Hplace e1 price w) as H1.
  destruct (place e1 price w) as [r1 w1].
  destruct H1 as [id1 [-> [[l1 [Hc1 Hl1]] Hs1]]].
  destruct (String.eqb id1 "") eqn:E1.
  2:{ exists id1, l1, [], [].
      split; [reflexivity|]. split; [exact Hl1|]. split; [left; reflexivity|].
      split; [left; reflexivity|]. split; [left; exact Hc1|].
      intros E. subst id1. discriminate. }
  apply String.eqb_eq in E1. subst id1. destruct (Hs1 eq_refl) as [Hst1 Hf1].
  match goal with |- context [place e2 price ?w0] =>
    pose proof (Hplace e2 price w0) as H2; destruct (place e2 price w0) as [r2 w2] end.
  destruct H2 as [id2 [-> [[l2 [Hc2 Hl2]] Hs2]]]. simpl in Hc2.
  destruct (String.eqb id2 "") eqn:E2.
  2:{ exists id2, l1, l2, [].
      split; [reflexivity|]. split; [exact Hl1|]. split; [exact Hl2|].
      split; [left; reflexivity|].
      split; [right; left; rewrite Hc2, Hc1, <- !app_assoc; reflexivity|].
      intros E. subst id2. discriminate. }
  apply String.eqb_eq in E2. subst id2. destruct (Hs2 eq_refl) as [Hst2 Hf2].
  simpl in Hst2, Hf2.
  match goal with |- context [place e3 price ?w0] =>
    pose proof (Hplace e3 price w0) as H3; destruct (place e3 price w0) as [r3 w3] end.
  destruct H3 as [id3 [-> [[l3 [Hc3 Hl3]] Hs3]]]. simpl in Hc3.
  assert (Hc : calls w3 = (calls w ++ l1 ++ ["Sleep 1s"] ++ l2 ++ ["Sleep 1s"] ++ l3)%list)
    by (rewrite Hc3, Hc2, Hc1, <- !app_assoc; reflexivity).
  destruct (String.eqb id3 "") eqn:E3; simpl.
  - apply String.eqb_eq in E3. subst id3. destruct (Hs3 eq_refl) as [Hst3 Hf3].
    simpl in Hst3, Hf3.
    exists "", l1, l2, l3.
    split; [reflexivity|]. split; [exact Hl1|]. split; [exact Hl2|]. split; [exact Hl3|].
    split; [right; right; exact Hc|].
    intros _. split; [exact Hc|]. split.
    + rewrite Hst3, Hst2. exact Hst1.
    + rewrite Hf3, Hf2. exact Hf1.
  - exists id3, l1, l2, l3.
    split; [reflexivity|]. split; [exact Hl1|]. split; [exact Hl2|]. split; [exact Hl3|].
    split; [right; right; exact Hc|].
    intros E. subst id3. discriminate.
Qed.

Lemma placeLongWithRetry_effect (e1 e2 e3 : Env) (price : Q) (w : World) :
  let '(r, w') := placeLongWithRetry e1 e2 e3 price w in
  exists id l1 l2 l3, r = OK id /\
    attempt_calls "PlaceLongOrder" l1 /\ attempt_calls "PlaceLongOrder" l2 /\
    attempt_calls "PlaceLongOrder" l3 /\
    (calls w' = (calls w ++ l1)%list \/
     calls w' = (calls w ++ l1 ++ ["Sleep 1s"] ++ l2)%list \/
     calls w' = (calls w ++ l1 ++ ["Sleep 1s"] ++ l2 ++ ["Sleep 1s"] ++ l3)%list) /\
    (id = "" ->
       calls w' = (calls w ++ l1 ++ ["Sleep 1s"] ++ l2 ++ ["Sleep 1s"] ++ l3)%list /\
       store w' = store w /\ orderPlaced w' = orderPlaced w).
Proof.
  apply (placeWithRetry_shape placeLongOrder "PlaceLongOrder").
  intros env p w0. pose proof (placeLongOrder_effect env p w0) as H.
  destruct (placeLongOrder env p w0) as [r w1].
  destruct H as [id [Hr [Hc Hs]]]. exists id. split; [exact Hr|]. split; [|exact Hs].
  destruct Hc as [Hc|[Hc|Hc]]; [exists []; rewrite app_nil_r|eexists|eexists];
    split; try exact Hc; unfold attempt_calls; auto.
Qed.

Lemma placeShortWithRetry_effect (e1 e2 e3 : Env) (price : Q) (w : World) :
  let '(r, w') := placeShortWithRetry e1 e2 e3 price w in
  exists id l1 l2 l3, r = OK id /\
    attempt_calls "PlaceShortOrder" l1 /\ attempt_calls "PlaceShortOrder" l2 /\
    attempt_calls "PlaceShortOrder" l3 /\
    (calls w' = (calls w ++ l1)%list \/
     calls w' = (calls w ++ l1 ++ ["Sleep 1s"] ++ l2)%list \/
     calls w' = (calls w ++ l1 ++ ["Sleep 1s"] ++ l2 ++ ["Sleep 1s"] ++ l3)%list) /\
    (id = "" ->
       calls w' = (calls w ++ l1 ++ ["Sleep 1s"] ++ l2 ++ ["Sleep 1s"] ++ l3)%list /\
       store w' = store w /\ orderPlaced w' = orderPlaced w).
Proof.
  apply (placeWithRetry_shape placeShortOrder "PlaceShortOrder").
  intros env p w0. pose proof (placeShortOrder_effect env p w0) as H.
  destruct (placeShortOrder env p w0) as [r w1].
  destruct H as [id [Hr [Hc Hs]]]. exists id. split; [exact Hr|]. split; [|exact Hs].
  destruct Hc as [Hc|[Hc|Hc]]; [exists []; rewrite app_nil_r|eexists|eexists];
    split; try exact Hc; unfold attempt_calls; auto.
Qed.

Lemma count_calls_app (x : string) (l1 l2 : list string) :
  count_calls x (l1 ++ l2) = (count_calls x l1 + count_calls x l2)%nat.
Proof. unfold count_calls. rewrite filter_app, length_app. reflexivity. Qed.

Lemma count_calls_attempt_sleep (y : string) (l : list string) :
  y <> "Sleep 1s" -> attempt_calls y l -> count_calls "Sleep 1s" l = 0%nat.
Proof.
  intros Hy [E|[E|E]]; subst l; unfold count_calls; [reflexivity|reflexivity|].
  cbn [filter]. destruct (String.eqb "Sleep 1s" y) eqn:E;
    [apply String.eqb_eq in E; congruence|reflexivity].
Qed.

Lemma UpdateOrderResult_err (f : Faults) (w : World) (orderID result : string) :
  let '(r, w') := UpdateOrderResult f orderID result w in
  forall e, r = Err e -> store w' = store w /\ orderPlaced w' = orderPlaced w.
Proof.
  unfold UpdateOrderResult, GetByOrderID, BeginTransaction, tx_update, tx_create_audit,
    RollbackTransaction, CommitTransaction, putStore, bind, try_, getStore, ret, fail; simpl.
  destruct_ifs; try destruct (findOrder _ _); simpl; destruct_ifs;
    try destruct (AuditBeforeCreate _); simpl; intros e0 H; try discriminate; auto.
Qed.

Lemma isPostionActive_false (f : Faults) (positions : Result (list string)) (w : World) :
  let '(r, w') := isPostionActive f positions w in
  r = OK (false, None) -> store w' = store w /\ orderPlaced w' = orderPlaced w.
Proof.
  unfold isPostionActive, GetOrdersByResult, GetByResult, call, logf, logln, bind, try_,
    getStore, ret, fail; simpl.
  destruct positions as [ps|e]; simpl; [|discriminate].
  destruct (fail_query f); simpl; [discriminate|].
  destruct (Nat.ltb 0 (List.length ps)); simpl; [|auto].
  destruct (rev _) as [|o os]; simpl; [discriminate|].
  match goal with |- context [UpdateOrderResult ?f ?i ?r ?w0] =>
    pose proof (UpdateOrderResult_err f w0 i r) as H;
    destruct (UpdateOrderResult f i r w0) as [[[]|e] w1] end; simpl; [discriminate|].
  intros _. destruct (H e eq_refl) as [Hs Hf]. simpl in Hs, Hf. auto.
Qed.

Lemma retry_counts (y : string) (l1 l2 l3 : list string) :
  y <> "Sleep 1s" -> y <> "GetUSDTBalance" ->
  attempt_calls y l1 -> attempt_calls y l2 -> attempt_calls y l3 ->
  (count_calls y l1 <= 1)%nat /\ (count_calls y l2 <= 1)%nat /\ (count_calls y l3 <= 1)%nat /\
  count_calls "Sleep 1s" l1 = 0%nat /\ count_calls "Sleep 1s" l2 = 0%nat /\
  count_calls "Sleep 1s" l3 = 0%nat /\
  count_calls y ["Sleep 1s"] = 0%nat /\ count_calls "Sleep 1s" ["Sleep 1s"] = 1%nat.
Proof.
  intros Hs Hg H1 H2 H3.
  repeat split; try (eapply attempt_calls_count; eassumption);
    try (eapply count_calls_attempt_sleep; eassumption).
  - unfold count_calls. cbn [filter]. destruct (String.eqb y "Sleep 1s") eqn:E;
      [apply String.eqb_eq in E; congruence|reflexivity].
Qed.

(** C7: the LONG and the SHORT placement blocks of executeTradingCycle
    attempt a placement at most three times (at most three exchange calls,
    at most two one-second sleeps, one between consecutive attempts); when
    the final orderID is empty all three attempts ran and neither the Order
    table nor the orderPlaced flag has changed; and a cycle that ends with an
    empty orderID leaves the Order table as it found it and the flag false. *)
Theorem placement_retry_at_most_three (e1 e2 e3 : Env) (price : Q) (w : World) :
  (let '(r, w') := placeLongWithRetry e1 e2 e3 price w in
   exists id new, r = OK id /\ calls w' = (calls w ++ new)%list /\
     (count_calls "PlaceLongOrder" new <= 3)%nat /\ (count_calls "Sleep 1s" new <= 2)%nat /\
     (id = "" -> count_calls "Sleep 1s" new = 2%nat /\
                 orders (store w') = orders (store w) /\ orderPlaced w' = orderPlaced w)) /\
  (let '(r, w') := placeShortWithRetry e1 e2 e3 price w in
   exists id new, r = OK id /\ calls w' = (calls w ++ new)%list /\
     (count_calls "PlaceShortOrder" new <= 3)%nat /\ (count_calls "Sleep 1s" new <= 2)%nat /\
     (id = "" -> count_calls "Sleep 1s" new = 2%nat /\
                 orders (store w') = orders (store w) /\ orderPlaced w' = orderPlaced w)) /\
  (forall env0 positions fetched w',
     executeTradingCycle env0 positions fetched e1 e2 e3 w = (OK (Placed ""), w') ->
     orders (store w') = orders (store w) /\ orderPlaced w' = false).
Proof.
  split; [|split].
  - pose proof (placeLongWithRetry_effect e1 e2 e3 price w) as H.
    destruct (placeLongWithRetry e1 e2 e3 price w) as [r w'].
    destruct H as [id [l1 [l2 [l3 [Hr [H1 [H2 [H3 [Hc Hs]]]]]]]]].
    destruct (retry_counts "PlaceLongOrder" l1 l2 l3) as (a1 & a2 & a3 & s1 & s2 & s3 & p & s);
      try discriminate; try assumption.
    destruct Hc as [Hc|[Hc|Hc]]; [exists id, l1|exists id, (l1 ++ ["Sleep 1s"] ++ l2)%list
      |exists id, (l1 ++ ["Sleep 1s"] ++ l2 ++ ["Sleep 1s"] ++ l3)%list];
      (split; [exact Hr|]); (split; [exact Hc|]); rewrite ?count_calls_app;
      (split; [lia|]); (split; [lia|]);
      intros E; destruct (Hs E) as [Hc' [Hst Hf]];
      (split; [|split; [rewrite Hst; reflexivity|exact Hf]]);
      rewrite Hc in Hc'; apply app_inv_head in Hc';
      apply (f_equal (count_calls "Sleep 1s")) in Hc'; rewrite ?count_calls_app in Hc'; lia.
  - pose proof (placeShortWithRetry_effect e1 e2 e3 price w) as H.
    destruct (placeShortWithRetry e1 e2 e3 price w) as [r w'].
    destruct H as [id [l1 [l2 [l3 [Hr [H1 [H2 [H3 [Hc Hs]]]]]]]]].
    destruct (retry_counts "PlaceShortOrder" l1 l2 l3) as (a1 & a2 & a3 & s1 & s2 & s3 & p & s);
      try discriminate; try assumption.
    destruct Hc as [Hc|[Hc|Hc]]; [exists id, l1|exists id, (l1 ++ ["Sleep 1s"] ++ l2)%list
      |exists id, (l1 ++ ["Sleep 1s"] ++ l2 ++ ["Sleep 1s"] ++ l3)%list];
      (split; [exact Hr|]); (split; [exact Hc|]); rewrite ?count_calls_app;
      (split; [lia|]); (split; [lia|]);
      intros E; destruct (Hs E) as [Hc' [Hst Hf]];
      (split; [|split; [rewrite Hst; reflexivity|exact Hf]]);
      rewrite Hc in Hc'; apply app_inv_head in Hc';
      apply (f_equal (count_calls "Sleep 1s")) in Hc'; rewrite ?count_calls_app in Hc'; lia.
  - intros env0 positions fetched w' Hcy. revert Hcy.
    unfold executeTradingCycle, bind, logln, logf, ret, setOrderPlaced.
    destruct (processorSet env0); simpl; [|discriminate].
    match goal with |- context [isPostionActive ?f ?p ?w0] =>
      pose proof (isPostionActive_false f p w0) as Hi;
      destruct (isPostionActive f p w0) as [[[[|] [e|]]|e] w1] end;
      simpl; try discriminate.
    destruct (Hi eq_refl) as [Hs1 Hf1]. simpl in Hs1.
    destruct fetched as [raw|e]; unfold fetchLast1000Candles, bind, logln, logf, call, ret;
      simpl; [|discriminate].
    destruct (extractCandlesForChecks (rev raw)) as [[[[l wall] support]|e]|m]; simpl;
      [|destruct (go_index _ _); simpl; discriminate|discriminate].
    destruct (go_index (rev raw) _) as [c|m]; simpl; [|discriminate].
    destruct (checkWallAndSupportBreak c l wall support) as [b1 b2].
    destruct b1, b2; simpl; destruct_ifs; try discriminate.
    all: match goal with
    | |- context [placeLongWithRetry ?a ?b ?d ?p ?w0] =>
        pose proof (placeLongWithRetry_effect a b d p w0) as Hp;
        destruct (placeLongWithRetry a b d p w0) as [r2 w2]
    | |- context [placeShortWithRetry ?a ?b ?d ?p ?w0] =>
        pose proof (placeShortWithRetry_effect a b d p w0) as Hp;
        destruct (placeShortWithRetry a b d p w0) as [r2 w2]
    end;
    destruct Hp as [id [l1 [l2 [l3 [Hr [_ [_ [_ [_ Hs]]]]]]]]]; subst r2; simpl;
    intros Hcy; inversion Hcy; subst;
    destruct (Hs eq_refl) as [_ [Hst Hf]]; simpl in Hst, Hf;
    rewrite Hst, Hs1; split; [reflexivity|exact Hf].
Qed.

Lemma qle_lt_false (a b : Q) : (b < a)%Q -> qle a b = false.
Proof.
  intros H. destruct (qle a b) eqn:E; [|reflexivity].
  apply Qle_bool_iff in E. exfalso. apply (Qlt_not_le b a H E).
Qed.

(** C8: once the exchange has acknowledged a placement (the OrderProcessor
    is set, the price and the computed quantity are positive, and the
    exchange answers with a successful response), placeLongOrder and
    placeShortOrder return the exchange's order ID whatever happens to the
    local persistence.  Either the order was persisted (one row with that ID
    appended, the flag set), or the Order table and the flag are unchanged
    and the log ends with the build or save error followed by the
    "placed but not saved" warning, with no placement error logged. *)
Theorem acknowledged_placement_returns_exchange_id (env : Env) (price b : Q)
  (resp : OrderResponse) (w : World) :
  processorSet env = true -> (0 < price)%Q -> usdtBalance env = OK b -> (0 < b / price)%Q ->
  placeResp env = OK resp -> IsSuccess resp = true ->
  (let '(r, w') := placeLongOrder env price w in
   r = OK (RespOrderID resp) /\
   ((orderPlaced w' = true /\
     exists o, orders (store w') = (orders (store w) ++ [o])%list /\ OrderID o = RespOrderID resp) \/
    (orderPlaced w' = orderPlaced w /\ orders (store w') = orders (store w) /\
     exists l m e, logs w' = (logs w ++ l ++ [(m, e); (msg_unrecorded, "")])%list /\
       (m = msg_build_error \/ m = msg_save_error) /\
       forall e', ~ In (msg_place_long_error, e') l))) /\
  (let '(r, w') := placeShortOrder env price w in
   r = OK (RespOrderID resp) /\
   ((orderPlaced w' = true /\
     exists o, orders (store w') = (orders (store w) ++ [o])%list /\ OrderID o = RespOrderID resp) \/
    (orderPlaced w' = orderPlaced w /\ orders (store w') = orders (store w) /\
     exists l m e, logs w' = (logs w ++ l ++ [(m, e); (msg_unrecorded, "")])%list /\
       (m = msg_build_error \/ m = msg_save_error) /\
       forall e', ~ In (msg_place_short_error, e') l))).
Proof.
  intros Hp Hpr Hb Hq Hr Hs.
  assert (E1 : qle price 0 = false) by (apply qle_lt_false; exact Hpr).
  assert (E2 : qle (b / price) 0 = false) by (apply qle_lt_false; exact Hq).
  split.
  all: unfold placeLongOrder, placeShortOrder, calculateMaxQuantity;
    rewrite Hp, E1, Hb, Hr, Hs; place_cases; try congruence.
  all: place_hyps.
  all: try discriminate.
  all: split; [reflexivity|].
  all: first
    [ left; split; [reflexivity|];
      match goal with
      | Hb : OrderBeforeCreate ?o = OK ?o', Hs : store ?w1 = store ?w0,
        Ho : orders (store ?w2) = (orders (store ?w1) ++ [set_ID ?o' ?n])%list |- _ =>
          exists (set_ID o' n); split; [rewrite Ho, Hs; reflexivity|];
          destruct (OrderBeforeCreate_fields o o' Hb) as [Hid _]; simpl; congruence
      end
    | right; split; [congruence|]; split; [congruence|];
      match goal with
      | Hl : logs ?w1 = _, HS : forall m e, In (m, e) ?x -> _ |- _ =>
          rewrite <- !app_assoc in Hl;
          match type of Hl with _ = (logs ?w0 ++ ?L)%list =>
            exists L; do 2 eexists; split; [rewrite Hl, <- !app_assoc; reflexivity|];
            split; [auto|];
            intros e' Hin; unfold msg_place_long_error, msg_place_short_error in Hin;
            repeat (apply in_app_or in Hin; destruct Hin as [Hin|Hin]);
            try (apply HS in Hin; discriminate);
            simpl in Hin; destruct Hin as [Hin|[]]; discriminate
          end
      end ].
Qed.

Lemma acknowledged_placement_returns_exchange_id_witness :
  processorSet env_c8 = true /\ (0 < 1)%Q /\ usdtBalance env_c8 = OK 10 /\ (0 < 10 / 1)%Q /\
  placeResp env_c8 = OK resp_c8 /\ IsSuccess resp_c8 = true /\
  fst (placeLongOrder env_c8 1 world_c1) = OK "bybit-1" /\
  fst (placeShortOrder env_c8 1 world_c1) = OK "bybit-1".
Proof.
  assert (H1 : (0 < 1)%Q) by reflexivity.
  assert (H2 : (0 < 10 / 1)%Q) by reflexivity.
  destruct (acknowledged_placement_returns_exchange_id env_c8 1 10 resp_c8 world_c1
              eq_refl H1 eq_refl H2 eq_refl eq_refl) as [HL HS].
  destruct (placeLongOrder env_c8 1 world_c1) as [rl wl].
  destruct (placeShortOrder env_c8 1 world_c1) as [rs ws].
  destruct HL as [HL _]. destruct HS as [HS _].
  repeat split; try assumption; try reflexivity.
Defined.

Lemma validateOrder_buy_tp_le (o : Order) (tp : Q) :
  Side o = OrderSideTypeBuy -> TakeProfitPrice o = Some tp -> (tp <= OrderPrice o)%Q ->
  validateOrder o <> None.
Proof.
  intros Hs Ht Hle. unfold validateOrder. rewrite Hs, Ht, (qle_true _ _ Hle).
  destruct_ifs; congruence.
Qed.

Lemma short_take_profit_below (price : Q) :
  (0 < price)%Q -> (calculateShortTakeProfit price (3 # 100) <= price)%Q.
Proof.
  intros H. unfold calculateShortTakeProfit.
  apply (Qle_trans _ (price * 1)).
  - apply (proj2 (Qmult_le_l _ _ _ H)). apply Qle_bool_imp_le. reflexivity.
  - rewrite Qmult_1_r. apply Qle_refl.
Qed.

(** C10: every Order that createOrderFromBybitResponse builds from an
    exchange response has Side = Buy, whatever the response; so
    placeShortOrder never records a Sell order: it leaves the Order table as
    it found it (the Buy order it builds has its take profit below its price
    and fails validation). *)
Theorem bybit_response_order_is_always_buy :
  (forall f resp triggerPrice quantity takeProfit stopLoss w o w',
     createOrderFromBybitResponse f resp triggerPrice quantity takeProfit stopLoss w = (OK o, w') ->
     Side o = OrderSideTypeBuy) /\
  (forall env price w,
     let '(_, w') := placeShortOrder env price w in
     orders (store w') = orders (store w) /\
     forall o, In o (orders (store w')) -> Side o = OrderSideTypeSell -> In o (orders (store w))).
Proof.
  split.
  - intros f resp tp q t s w o w' H.
    pose proof (createOrderFromBybitResponse_effect f resp tp q t s w) as He.
    rewrite H in He. destruct He as (_ & _ & _ & _ & Ho). apply (Ho o eq_refl).
  - intros env price w.
    cut (let '(_, w') := placeShortOrder env price w in orders (store w') = orders (store w)).
    { destruct (placeShortOrder env price w) as [r w']. intros H. split; [exact H|].
      intros o Hin _. rewrite <- H. exact Hin. }
    place_cases.
    all: place_hyps.
    all: try discriminate.
    all: try (repeat match goal with H : store _ = _ |- _ => rewrite H end; reflexivity).
    all: exfalso.
    all: match goal with
         | Hv : validateOrder ?o = None, Hp : qle (OrderPrice ?o) 0 = false |- _ =>
             apply (validateOrder_buy_tp_le o (calculateShortTakeProfit (OrderPrice o) (3 # 100)));
             [assumption|assumption|apply short_take_profit_below, qle_false; exact Hp|exact Hv]
         end.
Qed.


(* ------------------------------------------------------------------ *)
(** ** The store after the service's updates *)

Lemma findOrder_map_upd (id : string) (upd : Order -> Order) (l : list Order) :
  (forall o, OrderID (upd o) = OrderID o) ->
  findOrder id (map (fun o => if String.eqb (OrderID o) id then upd o else o) l) =
  option_map upd (findOrder id l).
Proof.
  intros Hid. unfold findOrder. induction l as [|a l IH]; simpl; [reflexivity|].
  destruct (String.eqb (OrderID a) id) eqn:E; simpl.
  - rewrite Hid, E. reflexivity.
  - rewrite E. exact IH.
Qed.

Lemma set_Result_same (o : Order) : set_Result o (Result_ o) = o.
Proof. destruct o; reflexivity. Qed.


Lemma AuditBeforeCreate_system (id field : string) (old new : option string) :
  id <> "" -> field <> "" ->
  AuditBeforeCreate (mkAudit id field old new "system") = OK (mkAudit id field old new "system").
Proof.
  intros Hi Hf. unfold AuditBeforeCreate; simpl.
  apply String.eqb_neq in Hi, Hf. rewrite Hi, Hf. reflexivity.
Qed.

Ltac run_service :=
  unfold GetByOrderID, GetByStatusName, BeginTransaction, tx_update, tx_create_audit,
    RollbackTransaction, CommitTransaction, putStore, bind, try_, getStore, ret, fail in *;
  simpl in *.

(** UpdateOrderResult on an order that is stored.  On success the order stored
    under the id is the one found before with only its Result replaced, and
    the audit table gained one "result" row (old and new value) exactly when
    the Result changed; on failure the store is as it was.  With no store
    fault and a non-empty id it always succeeds. *)
Lemma UpdateOrderResult_store (f : Faults) (w w' : World) (orderID result : string)
  (o : Order) (r : Result unit) :
  findOrder orderID (orders (store w)) = Some o ->
  UpdateOrderResult f orderID result w = (r, w') ->
  (f = noFaults -> orderID <> "" -> r = OK tt) /\
  (r = OK tt ->
     orders (store w') =
       (if String.eqb (Result_ o) result then orders (store w)
        else map (fun x => if String.eqb (OrderID x) orderID then set_Result x result else x)
                 (orders (store w))) /\
     audits (store w') =
       (audits (store w) ++
        if String.eqb (Result_ o) result then []
        else [mkAudit orderID "result" (Some (Result_ o)) (Some result) "system"])%list /\
     statuses (store w') = statuses (store w)) /\
  ((exists e, r = Err e) -> store w' = store w).
Proof.
  intros Hf. unfold UpdateOrderResult. run_service. rewrite Hf; simpl.
  destruct (fail_query f) eqn:Hq; simpl.
  { intros H; inversion H; subst. split; [intros ->; discriminate|].
    split; [discriminate|reflexivity]. }
  destruct (String.eqb (Result_ o) result) eqn:Er; simpl.
  { intros H; inversion H; subst. rewrite app_nil_r.
    split; [reflexivity|]. split; [intros _; auto|]. intros [e He]; discriminate. }
  destruct (fail_begin f) eqn:Hb; simpl.
  { intros H; inversion H; subst. split; [intros ->; discriminate|].
    split; [discriminate|reflexivity]. }
  destruct (fail_update f) eqn:Hu; simpl.
  { intros H; inversion H; subst. split; [intros ->; discriminate|].
    split; [discriminate|reflexivity]. }
  destruct (fail_audit f) eqn:Ha; simpl.
  { intros H; inversion H; subst. split; [intros ->; discriminate|].
    split; [discriminate|reflexivity]. }
  unfold AuditBeforeCreate; simpl.
  destruct (String.eqb orderID "") eqn:Hid; simpl.
  { intros H; inversion H; subst. split.
    - intros _ Hne. apply String.eqb_eq in Hid. contradiction.
    - split; [discriminate|reflexivity]. }
  destruct (fail_commit f) eqn:Hc; simpl.
  { intros H; inversion H; subst. split; [intros ->; discriminate|].
    split; [discriminate|reflexivity]. }
  intros H; inversion H; subst. simpl. split; [auto|]. split.
  - intros _. split; [|split]; reflexivity.
  - intros [e He]; discriminate.
Qed.



Lemma UpdateOrderResult_found (f : Faults) (w w' : World) (orderID result : string) :
  UpdateOrderResult f orderID result w = (OK tt, w') ->
  exists o, findOrder orderID (orders (store w)) = Some o.
Proof.
  unfold UpdateOrderResult. run_service.
  destruct (fail_query f); simpl; [intros H; discriminate H|].
  destruct (findOrder orderID (orders (store w))); simpl; [eauto|intros H; discriminate H].
Qed.



(** X1: UpdateOrderResult followed by a lookup.  On success the order then
    stored under the id is the one found before with only its Result
    replaced, and the audit table gained one "result" row (old and new value)
    exactly when the Result changed; on failure the store is as it was.  With
    no store fault and a non-empty id it always succeeds. *)
Theorem UpdateOrderResult_lookup (f : Faults) (w w' : World) (orderID result : string)
  (o : Order) (r : Result unit) :
  findOrder orderID (orders (store w)) = Some o ->
  UpdateOrderResult f orderID result w = (r, w') ->
  (f = noFaults -> orderID <> "" -> r = OK tt) /\
  (r = OK tt ->
     findOrder orderID (orders (store w')) = Some (set_Result o result) /\
     audits (store w') =
       (audits (store w) ++
        if String.eqb (Result_ o) result then []
        else [mkAudit orderID "result" (Some (Result_ o)) (Some result) "system"])%list /\
     statuses (store w') = statuses (store w)) /\
  ((exists e, r = Err e) -> store w' = store w).
Proof.
  intros Hf Hu. destruct (UpdateOrderResult_store f w w' orderID result o r Hf Hu)
    as [Hok [Hs He]].
  split; [exact Hok|]. split; [|exact He].
  intros Hr. destruct (Hs Hr) as [Ho [Ha Hst]]. split; [|split; assumption].
  rewrite Ho. destruct (String.eqb (Result_ o) result) eqn:Er.
  - apply String.eqb_eq in Er. subst result. rewrite set_Result_same. exact Hf.
  - rewrite findOrder_map_upd; [rewrite Hf; reflexivity|reflexivity].
Qed.










(** X6: the Order predicates of models/order.go after UpdateOrderResult.
    An active order is never completed; once UpdateOrderResult has set a
    result, the stored order is completed exactly when the result is not
    Pending, profitable exactly when it is Profit, losing exactly when it is
    Loss, and with a result other than Pending it is inactive whatever its
    status. *)
Theorem order_predicates_after_result (f : Faults) (w w' : World) (orderID result : string) :
  (forall o st, Order_IsActive o st = true -> IsCompleted o = false) /\
  (UpdateOrderResult f orderID result w = (OK tt, w') ->
   exists o', findOrder orderID (orders (store w')) = Some o' /\
     IsCompleted o' = negb (String.eqb result OrderResultPending) /\
     IsProfitable o' = String.eqb result OrderResultProfit /\
     IsLosing o' = String.eqb result OrderResultLoss /\
     (result <> OrderResultPending -> forall st, Order_IsActive o' st = false)).
Proof.
  split.
  - intros o [st|]; unfold Order_IsActive, IsCompleted; simpl; [|discriminate].
    destruct (String.eqb (Result_ o) OrderResultPending); simpl; [reflexivity|discriminate].
  - intros Hu.
    destruct (UpdateOrderResult_found f w w' orderID result Hu) as [o Hf].
    destruct (UpdateOrderResult_store f w w' orderID result o (OK tt) Hf Hu) as [_ [Hs _]].
    destruct (Hs eq_refl) as [Ho _].
    exists (set_Result o result). split.
    + rewrite Ho. destruct (String.eqb (Result_ o) result) eqn:Er.
      * apply String.eqb_eq in Er. subst result. rewrite set_Result_same. exact Hf.
      * rewrite findOrder_map_upd; [rewrite Hf; reflexivity|reflexivity].
    + unfold IsCompleted, IsProfitable, IsLosing; simpl.
      split; [reflexivity|]. split; [reflexivity|]. split; [reflexivity|].
      intros Hp [st|]; unfold Order_IsActive; simpl; [|reflexivity].
      apply String.eqb_neq in Hp. rewrite Hp. reflexivity.
Qed.

Lemma findOrder_app_new (id : string) (l : list Order) (x : Order) :
  findOrder id l = None -> OrderID x = id -> findOrder id (l ++ [x])%list = Some x.
Proof.
  unfold findOrder. intros Hn Hx. induction l as [|a l IH]; simpl in *.
  - rewrite Hx, String.eqb_refl. reflexivity.
  - destruct (String.eqb (OrderID a) id); [discriminate|]. apply IH. exact Hn.
Qed.

Lemma validateOrder_OrderID_nonempty (o : Order) :
  validateOrder o = None -> OrderID o <> "".
Proof.
  unfold validateOrder. intros H E. rewrite E in H. discriminate.
Qed.

(** A successful CreateOrder with no store fault. *)
Lemma CreateOrder_noFaults_ok (o : Order) (w w1 : World) :
  CreateOrder noFaults o w = (OK tt, w1) ->
  exists o0, OrderBeforeCreate o = OK o0 /\ validateOrder o = None /\
    findOrder (OrderID o) (orders (store w)) = None /\
    orders (store w1) = (orders (store w) ++ [set_ID o0 (S (List.length (orders (store w))))])%list /\
    audits (store w1) =
      (audits (store w) ++ [mkAudit (OrderID o) "created" None (Some "Order created") "system"])%list.
Proof.
  unfold CreateOrder. destruct (validateOrder o) eqn:Hv; [intros H; discriminate H|].
  unfold Exists, StatusGetByID, OrderCreate, AuditCreate, bind, try_, getStore, putStore,
    ret, fail, logf; simpl.
  destruct (findOrder (OrderID o) (orders (store w))) eqn:Hf; simpl; [intros H; discriminate H|].
  destruct (find _ (statuses (store w))) as [st|]; simpl; [|intros H; discriminate H].
  destruct (IsActive st); simpl; [|intros H; discriminate H].
  destruct (OrderBeforeCreate o) as [o0|e] eqn:Hb; simpl; [|intros H; discriminate H].
  rewrite AuditBeforeCreate_system; [|apply validateOrder_OrderID_nonempty; exact Hv|discriminate].
  simpl. intros H; inversion H; subst; clear H. simpl.
  exists o0. repeat split; reflexivity.
Qed.

(** X7: the audit trail of a new order.  After a CreateOrder and an
    UpdateOrderResult of the new order, with no store fault, the update
    succeeds and GetOrderWithAudit returns the stored order (the new row,
    with the new result) and a trail made of exactly the audit rows of that
    order id; it holds the creation row and, when the result changed, the
    "result" row. *)
Theorem audit_trail_after_create_and_result (o : Order) (result : string) (w w1 : World) :
  CreateOrder noFaults o w = (OK tt, w1) ->
  let u := UpdateOrderResult noFaults (OrderID o) result w1 in
  fst u = OK tt /\
  exists o0 trail, OrderBeforeCreate o = OK o0 /\
    GetOrderWithAudit noFaults (OrderID o) (snd u) =
      (OK (set_Result (set_ID o0 (S (List.length (orders (store w))))) result, trail), snd u) /\
    In (mkAudit (OrderID o) "created" None (Some "Order created") "system") trail /\
    (Result_ o0 <> result ->
       In (mkAudit (OrderID o) "result" (Some (Result_ o0)) (Some result) "system") trail) /\
    (forall a, In a trail <-> In a (audits (store (snd u))) /\ AuditOrderID a = OrderID o).
Proof.
  intros Hc. cbv zeta.
  destruct (CreateOrder_noFaults_ok o w w1 Hc) as [o0 [Hb [Hv [Hn [Ho Ha]]]]].
  set (x := set_ID o0 (S (List.length (orders (store w))))).
  assert (Hx : OrderID x = OrderID o).
  { unfold x, set_ID; simpl. apply OrderBeforeCreate_fields in Hb. destruct Hb as [-> _].
    reflexivity. }
  assert (Hf1 : findOrder (OrderID o) (orders (store w1)) = Some x).
  { rewrite Ho. apply findOrder_app_new; assumption. }
  destruct (UpdateOrderResult noFaults (OrderID o) result w1) as [r2 w2] eqn:Hu.
  destruct (UpdateOrderResult_store noFaults w1 w2 (OrderID o) result x r2 Hf1 Hu)
    as [Hok [Hs _]].
  assert (Hr2 : r2 = OK tt) by (apply Hok; [reflexivity|apply validateOrder_OrderID_nonempty; exact Hv]).
  subst r2. simpl. split; [reflexivity|].
  destruct (Hs eq_refl) as [Ho2 [Ha2 _]].
  assert (Hf2 : findOrder (OrderID o) (orders (store w2)) = Some (set_Result x result)).
  { rewrite Ho2. destruct (String.eqb (Result_ x) result) eqn:Er.
    - apply String.eqb_eq in Er. subst result. rewrite set_Result_same. exact Hf1.
    - rewrite findOrder_map_upd; [rewrite Hf1; reflexivity|reflexivity]. }
  exists o0.
  exists (rev (filter (fun a => String.eqb (AuditOrderID a) (OrderID o)) (audits (store w2)))).
  split; [exact Hb|].
  assert (Hin : forall a, In a (rev (filter (fun a => String.eqb (AuditOrderID a) (OrderID o))
                                          (audits (store w2)))) <->
                          In a (audits (store w2)) /\ AuditOrderID a = OrderID o).
  { intros a. rewrite <- in_rev, filter_In, String.eqb_eq. tauto. }
  split.
  { unfold GetOrderWithAudit, GetByOrderID, AuditGetByOrderID, bind, try_, getStore, ret, fail;
      simpl. rewrite Hf2. reflexivity. }
  split; [|split; [|exact Hin]].
  - apply Hin. split; [|reflexivity]. rewrite Ha2, Ha. apply in_or_app. left.
    apply in_or_app. right. left. reflexivity.
  - intros Hne. apply Hin. split; [|reflexivity]. rewrite Ha2.
    assert (Hxr : Result_ x = Result_ o0) by reflexivity. rewrite Hxr.
    apply String.eqb_neq in Hne. rewrite Hne. apply in_or_app. right. left. reflexivity.
Qed.

Lemma tx_save_audits (f : Faults) (tx tx1 : DB) (o : Order) :
  tx_save f tx o = OK tx1 -> audits tx1 = audits tx /\ statuses tx1 = statuses tx.
Proof.
  unfold tx_save. destruct_ifs; try discriminate;
    destruct_matches; destruct_ifs; intros H; inversion H; subst; simpl; auto.
Qed.

(** The rows createAuditRecords writes, when it succeeds. *)
Lemma createAuditRecords_ok (f : Faults) (tx tx' : DB) (old new : Order) :
  OrderID new <> "" ->
  createAuditRecords f tx old new = OK tx' ->
  orders tx' = orders tx /\ statuses tx' = statuses tx /\
  audits tx' =
    (audits tx ++
     (if negb (Qeq_bool (OrderPrice old) (OrderPrice new))
      then [mkAudit (OrderID new) "order_price"
              (Some (Sprintf_f (OrderPrice old))) (Some (Sprintf_f (OrderPrice new))) "system"]
      else []) ++
     (if ptrPriceChanged (TakeProfitPrice old) (TakeProfitPrice new)
      then [mkAudit (OrderID new) "take_profit_price"
              (option_map Sprintf_f (TakeProfitPrice old))
              (option_map Sprintf_f (TakeProfitPrice new)) "system"]
      else []) ++
     (if ptrPriceChanged (StopLossPrice old) (StopLossPrice new)
      then [mkAudit (OrderID new) "stop_loss_price"
              (option_map Sprintf_f (StopLossPrice old))
              (option_map Sprintf_f (StopLossPrice new)) "system"]
      else []) ++
     (if negb (Nat.eqb (OrderStatusID old) (OrderStatusID new))
      then [mkAudit (OrderID new) "order_status_id"
              (Some (Sprintf_d (OrderStatusID old))) (Some (Sprintf_d (OrderStatusID new)))
              "system"]
      else []) ++
     (if negb (String.eqb (Result_ old) (Result_ new))
      then [mkAudit (OrderID new) "result" (Some (Result_ old)) (Some (Result_ new)) "system"]
      else []))%list.
Proof.
  intros Hid. apply String.eqb_neq in Hid.
  unfold createAuditRecords, createAuditIf, tx_create_audit, AuditBeforeCreate.
  simpl. rewrite !Hid. simpl.
  repeat (match goal with
          | |- context [if ?b then _ else _] => destruct b
          end; simpl);
  intros H; inversion H; subst; simpl; rewrite <- ?app_assoc, ?app_nil_r; auto.
Qed.

Lemma Qneq_bool_iff (a b : Q) : negb (Qeq_bool a b) = true <-> ~ (a == b)%Q.
Proof.
  rewrite negb_true_iff. split.
  - intros H E. apply Qeq_bool_iff in E. congruence.
  - intros H. destruct (Qeq_bool a b) eqn:E; [|reflexivity].
    apply Qeq_bool_iff in E. contradiction.
Qed.

Lemma ptrPriceChanged_iff (a b : option Q) : ptrPriceChanged a b = true <-> ~ samePrice a b.
Proof.
  destruct a as [x|], b as [y|]; simpl; try (split; [intros _ []|reflexivity]);
    try (split; [discriminate|intros H; exfalso; apply H; exact I]).
  apply Qneq_bool_iff.
Qed.

Lemma Nat_neq_bool_iff (a b : nat) : negb (Nat.eqb a b) = true <-> a <> b.
Proof. rewrite negb_true_iff, Nat.eqb_neq. reflexivity. Qed.

Lemma String_neq_bool_iff (a b : string) : negb (String.eqb a b) = true <-> a <> b.
Proof. rewrite negb_true_iff, String.eqb_neq. reflexivity. Qed.

Lemma UpdateOrder_effect (f : Faults) (w w' : World) (order : Order) (r : Result unit) :
  UpdateOrder f order w = (r, w') ->
  ((exists e, r = Err e) -> store w' = store w) /\
  (r = OK tt -> exists old tx1,
     findOrder (OrderID order) (orders (store w)) = Some old /\
     validateOrder order = None /\
     tx_save f (store w) order = OK tx1 /\
     createAuditRecords f tx1 old order = OK (store w')).
Proof.
  unfold UpdateOrder. run_service.
  destruct (fail_query f); simpl.
  { intros H; inversion H; subst. split; [reflexivity|discriminate]. }
  destruct (findOrder (OrderID order) (orders (store w))) as [old|] eqn:Hf; simpl.
  2:{ intros H; inversion H; subst. split; [reflexivity|discriminate]. }
  destruct (validateOrder order) eqn:Hv; simpl.
  { intros H; inversion H; subst. split; [reflexivity|discriminate]. }
  destruct (fail_begin f); simpl.
  { intros H; inversion H; subst. split; [reflexivity|discriminate]. }
  destruct (tx_save f (store w) order) as [tx1|e] eqn:Hs; simpl.
  2:{ intros H; inversion H; subst. split; [reflexivity|discriminate]. }
  destruct (createAuditRecords f tx1 old order) as [tx2|e] eqn:Hc; simpl.
  2:{ intros H; inversion H; subst. split; [reflexivity|discriminate]. }
  destruct (fail_commit f); simpl.
  { intros H; inversion H; subst. split; [reflexivity|discriminate]. }
  intros H; inversion H; subst. split; [intros [e He]; discriminate|].
  intros _. exists old, tx1. simpl. auto.
Qed.

(** X8: OrderService.UpdateOrder and its audit rows.  A failing UpdateOrder
    leaves the store as it was.  A successful one had found the stored order
    with the same OrderID and validated the new one, and it appended to the
    audit table one row per changed field, under the order's id and by
    "system": "order_price", "take_profit_price", "stop_loss_price",
    "order_status_id" and "result" each appear, once, exactly when that
    field differs between the stored and the new order. *)
Theorem UpdateOrder_audit_rows (f : Faults) (w w' : World) (order : Order) (r : Result unit) :
  UpdateOrder f order w = (r, w') ->
  ((exists e, r = Err e) -> store w' = store w) /\
  (r = OK tt -> exists old rows,
     findOrder (OrderID order) (orders (store w)) = Some old /\
     validateOrder order = None /\
     audits (store w') = (audits (store w) ++ rows)%list /\
     Forall (fun a => AuditOrderID a = OrderID order /\ ChangedBy a = "system") rows /\
     NoDup (map FieldName rows) /\
     incl (map FieldName rows)
       ["order_price"; "take_profit_price"; "stop_loss_price"; "order_status_id"; "result"] /\
     (In "order_price" (map FieldName rows) <-> ~ (OrderPrice old == OrderPrice order)%Q) /\
     (In "take_profit_price" (map FieldName rows) <->
        ~ samePrice (TakeProfitPrice old) (TakeProfitPrice order)) /\
     (In "stop_loss_price" (map FieldName rows) <->
        ~ samePrice (StopLossPrice old) (StopLossPrice order)) /\
     (In "order_status_id" (map FieldName rows) <-> OrderStatusID old <> OrderStatusID order) /\
     (In "result" (map FieldName rows) <-> Result_ old <> Result_ order)).
Proof.
  intros Hu. destruct (UpdateOrder_effect f w w' order r Hu) as [He Hok].
  split; [exact He|]. intros Hr. destruct (Hok Hr) as [old [tx1 [Hf [Hv [Hs Hc]]]]].
  apply createAuditRecords_ok in Hc; [|apply validateOrder_OrderID_nonempty; exact Hv].
  destruct Hc as [_ [_ Ha]]. destruct (tx_save_audits _ _ _ _ Hs) as [Hsa _].
  rewrite Hsa in Ha. eexists old, _. split; [exact Hf|]. split; [exact Hv|].
  split; [exact Ha|].
  rewrite <- Qneq_bool_iff, <- !ptrPriceChanged_iff, <- Nat_neq_bool_iff,
    <- String_neq_bool_iff.
  destruct (negb (Qeq_bool (OrderPrice old) (OrderPrice order)));
  destruct (ptrPriceChanged (TakeProfitPrice old) (TakeProfitPrice order));
  destruct (ptrPriceChanged (StopLossPrice old) (StopLossPrice order));
  destruct (negb (Nat.eqb (OrderStatusID old) (OrderStatusID order)));
  destruct (negb (String.eqb (Result_ old) (Result_ order))); simpl;
  (split; [repeat constructor|]);
  (split; [repeat (constructor; [simpl; intuition discriminate|]); constructor|]);
  (split; [intros x Hx; simpl in Hx; simpl; tauto|]);
  repeat split; simpl; intuition discriminate.
Qed.


Lemma green_max_loop_generic (cs : list Candle) (i : nat) (vmax : Q) (cnt : nat) :
  green_max_loop cs i vmax cnt
  = volume_max_loop (fun c => qlt (Open c) (Close c)) cs i vmax cnt.
Proof.
  revert vmax cnt. induction i as [|i IH]; intros vmax cnt; simpl; [reflexivity|].
  rewrite !IH. reflexivity.
Qed.

Lemma red_max_loop_generic (cs : list Candle) (i : nat) (vmax : Q) (cnt : nat) :
  red_max_loop cs i vmax cnt
  = volume_max_loop (fun c => qlt (Close c) (Open c)) cs i vmax cnt.
Proof.
  revert vmax cnt. induction i as [|i IH]; intros vmax cnt; simpl; [reflexivity|].
  rewrite !IH. reflexivity.
Qed.

Lemma qmax_step_ge_l (vmax v : Q) : (vmax <= (if qlt vmax v then v else vmax))%Q.
Proof.
  destruct (qlt vmax v) eqn:E.
  - apply qlt_true in E. apply Qlt_le_weak. exact E.
  - apply Qle_refl.
Qed.

Lemma qmax_step_ge_r (vmax v : Q) : (v <= (if qlt vmax v then v else vmax))%Q.
Proof.
  destruct (qlt vmax v) eqn:E.
  - apply Qle_refl.
  - unfold qlt in E. apply negb_false_iff in E. apply Qle_bool_iff. exact E.
Qed.

Lemma volume_max_loop_ge (p : Candle -> bool) (cs : list Candle) (i : nat) (vmax : Q) (cnt : nat) :
  (vmax <= volume_max_loop p cs i vmax cnt)%Q.
Proof.
  revert vmax cnt. induction i as [|i IH]; intros vmax cnt; simpl; [apply Qle_refl|].
  destruct (Nat.ltb cnt 10); [|apply Qle_refl].
  destruct (p (nth (S i) cs candle0)); [|apply IH].
  eapply Qle_trans; [apply qmax_step_ge_l|apply IH].
Qed.

Lemma count_seq_step (p : Candle -> bool) (cs : list Candle) (i j : nat) :
  (j <= i)%nat ->
  List.length (filter (fun k => p (nth k cs candle0)) (seq (S j) (S i - j)))
  = (List.length (filter (fun k => p (nth k cs candle0)) (seq (S j) (i - j)))
     + (if p (nth (S i) cs candle0) then 1 else 0))%nat.
Proof.
  intros Hj. replace (S i - j)%nat with (S (i - j)) by lia.
  rewrite seq_S, filter_app, length_app.
  replace (S j + (i - j))%nat with (S i) by lia. simpl.
  destruct (p (nth (S i) cs candle0)); simpl; lia.
Qed.

Lemma volume_max_loop_bound (p : Candle -> bool) (cs : list Candle) (i : nat) :
  forall (vmax : Q) (cnt j : nat),
  (1 <= j <= i)%nat -> p (nth j cs candle0) = true ->
  (cnt + List.length (filter (fun k => p (nth k cs candle0)) (seq (S j) (i - j))) < 10)%nat ->
  (Volume (nth j cs candle0) <= volume_max_loop p cs i vmax cnt)%Q.
Proof.
  induction i as [|i IH]; intros vmax cnt j Hj Hp Hc; [lia|].
  simpl volume_max_loop.
  assert (Hlt : Nat.ltb cnt 10 = true) by (apply Nat.ltb_lt; lia).
  rewrite Hlt.
  destruct (Nat.eq_dec j (S i)) as [->|Hne].
  - rewrite Hp. eapply Qle_trans; [apply qmax_step_ge_r|apply volume_max_loop_ge].
  - rewrite count_seq_step in Hc by lia.
    destruct (p (nth (S i) cs candle0)).
    + apply IH; [lia|exact Hp|lia].
    + apply IH; [lia|exact Hp|lia].
Qed.

Lemma volume_max_loop_value (p : Candle -> bool) (cs : list Candle) (i : nat) :
  forall (vmax : Q) (cnt : nat),
  volume_max_loop p cs i vmax cnt = vmax \/
  exists j, (1 <= j <= i)%nat /\ p (nth j cs candle0) = true /\
    (cnt + List.length (filter (fun k => p (nth k cs candle0)) (seq (S j) (i - j))) < 10)%nat /\
    volume_max_loop p cs i vmax cnt = Volume (nth j cs candle0).
Proof.
  induction i as [|i IH]; intros vmax cnt; simpl volume_max_loop; [left; reflexivity|].
  destruct (Nat.ltb cnt 10) eqn:Hlt; [|left; reflexivity].
  apply Nat.ltb_lt in Hlt.
  destruct (p (nth (S i) cs candle0)) eqn:Hp.
  - destruct (IH (if qlt vmax (Volume (nth (S i) cs candle0))
                  then Volume (nth (S i) cs candle0) else vmax) (S cnt))
      as [E|(j & Hj & Hpj & Hc & E)].
    + rewrite E. destruct (qlt vmax (Volume (nth (S i) cs candle0))).
      * right. exists (S i). split; [|split; [exact Hp|split; [|reflexivity]]].
        -- split; [lia|lia].
        -- rewrite Nat.sub_diag. simpl. lia.
      * left. reflexivity.
    + right. exists j. split; [lia|split; [exact Hpj|split; [|exact E]]].
      rewrite count_seq_step by lia. rewrite Hp. lia.
  - destruct (IH vmax cnt) as [E|(j & Hj & Hpj & Hc & E)]; [left; exact E|].
    right. exists j. split; [lia|split; [exact Hpj|split; [|exact E]]].
    rewrite count_seq_step by lia. rewrite Hp. lia.
Qed.

Lemma volume_max_loop_spec (p : Candle -> bool) (cs : list Candle) :
  let n := (List.length cs - 2)%nat in
  let r := volume_max_loop p cs n 0 0 in
  (0 <= r)%Q /\
  (r = 0%Q \/ exists j, scanned_candle p cs n j /\ r = Volume (nth j cs candle0)) /\
  (forall j, scanned_candle p cs n j -> (Volume (nth j cs candle0) <= r)%Q).
Proof.
  cbv zeta. split; [apply volume_max_loop_ge|split].
  - destruct (volume_max_loop_value p cs (List.length cs - 2) 0 0)
      as [E|(j & Hj & Hp & Hc & E)]; [left; exact E|].
    right. exists j. split; [|exact E]. split; [exact Hj|split; [exact Hp|lia]].
  - intros j (Hj & Hp & Hc). apply volume_max_loop_bound; [exact Hj|exact Hp|lia].
Qed.

(** X10: calculateGreenCandlesVolumeMax scans the candles from index len-2
    down to index 1 and stops after ten green ones (Close > Open).  Its result
    is at least 0; it is either 0 or the volume of one of those scanned green
    candles; and it is at least the volume of each of them.  So it is the
    largest volume of the (at most ten) most recent green candles before the
    last, or 0 when there is none. *)
Theorem calculateGreenCandlesVolumeMax_spec (cs : list Candle) :
  let green := fun c => qlt (Open c) (Close c) in
  let n := (List.length cs - 2)%nat in
  let r := calculateGreenCandlesVolumeMax cs in
  (0 <= r)%Q /\
  (r = 0%Q \/ exists j, scanned_candle green cs n j /\ r = Volume (nth j cs candle0)) /\
  (forall j, scanned_candle green cs n j -> (Volume (nth j cs candle0) <= r)%Q).
Proof.
  cbv zeta. unfold calculateGreenCandlesVolumeMax. rewrite green_max_loop_generic.
  apply volume_max_loop_spec.
Qed.

(** X11: calculateRedCandlesVolumeMax does the same for red candles
    (Close < Open): its result is at least 0, is 0 or the volume of one of the
    (at most ten) red candles it scans from index len-2 down to index 1, and is
    at least the volume of each of them. *)
Theorem calculateRedCandlesVolumeMax_spec (cs : list Candle) :
  let red := fun c => qlt (Close c) (Open c) in
  let n := (List.length cs - 2)%nat in
  let r := calculateRedCandlesVolumeMax cs in
  (0 <= r)%Q /\
  (r = 0%Q \/ exists j, scanned_candle red cs n j /\ r = Volume (nth j cs candle0)) /\
  (forall j, scanned_candle red cs n j -> (Volume (nth j cs candle0) <= r)%Q).
Proof.
  cbv zeta. unfold calculateRedCandlesVolumeMax. rewrite red_max_loop_generic.
  apply volume_max_loop_spec.
Qed.

(** X12: Order.CalculatePnL.  When the order price is not 0 and the quantity is
    not 0, the PnL percentage is the price move relative to the order price,
    times 100: (p - price) / price * 100 for a Buy, (price - p) / price * 100
    otherwise; the quantity cancels out.  When the order price is 0 the
    percentage is left as it was. *)
Theorem CalculatePnL_percentage (o : Order) (p : Q) :
  ((OrderPrice o == 0)%Q -> PnLPercentage (CalculatePnL o p) = PnLPercentage o) /\
  (~ (OrderPrice o == 0)%Q -> ~ (Quantity o == 0)%Q ->
   (PnLPercentage (CalculatePnL o p)
    == (if String.eqb (Side o) OrderSideTypeBuy then p - OrderPrice o else OrderPrice o - p)
       / OrderPrice o * 100)%Q).
Proof.
  unfold CalculatePnL, set_PnL. simpl. split.
  - intros H. apply Qeq_bool_iff in H. rewrite H. reflexivity.
  - intros Hp Hq.
    assert (Hb : Qeq_bool (OrderPrice o) 0 = false)
      by (destruct (Qeq_bool (OrderPrice o) 0) eqn:E; [apply Qeq_bool_iff in E; contradiction|reflexivity]).
    rewrite Hb. simpl.
    destruct (String.eqb (Side o) OrderSideTypeBuy); field; auto.
Qed.

(** X13: mapBybitStatusToOrderStatusID.  A status outside the nine mapped
    Bybit statuses is looked up as "New", with one warning logged; a mapped
    one is looked up under its own name.  The result is the ID of the first
    stored status row with that name; with no such row, or when the query
    fails, it is an error naming the looked-up status.  The store, the flag
    and the calls are untouched. *)
Theorem mapBybitStatusToOrderStatusID_lookup (f : Faults) (s : string) (w : World) :
  let known := existsb (String.eqb s) bybitStatuses in
  let mapped := if known then s else "New" in
  let '(r, w') := mapBybitStatusToOrderStatusID f s w in
  store w' = store w /\ orderPlaced w' = orderPlaced w /\ calls w' = calls w /\
  logs w' = (logs w ++ (if known then []
                        else [("Stato Bybit '%s' non mappato, uso 'New' come default", s)]))%list /\
  (forall id, r = OK id <->
     fail_query f = false /\
     exists st, find (fun st => String.eqb (StatusName st) mapped) (statuses (store w)) = Some st
                /\ StatusID st = id) /\
  (forall e, r = Err e -> exists e', e = "failed to get order status '" ++ mapped ++ "': " ++ e').
Proof.
  cbv zeta. unfold mapBybitStatusToOrderStatusID, GetByStatusName,
    try_, bind, ret, fail, logf, getStore.
  destruct (existsb _ bybitStatuses); simpl;
  destruct (fail_query f) eqn:Fq; simpl;
  try destruct (find _ _) eqn:Fd; simpl;
  (split; [reflexivity|split; [reflexivity|split; [reflexivity|split; [rewrite ?app_nil_r; reflexivity|split]]]]);
  try (intros id; split; [intros H; discriminate H|intros [H _]; discriminate H]);
  try (intros id; split;
       [intros H; inversion H; subst; split; [reflexivity|eexists; split; reflexivity]
       |intros [_ (st & Hst & Hid)]; inversion Hst; subst; reflexivity]);
  try (intros id; split; [intros H; discriminate H|intros [_ (st & Hst & _)]; discriminate Hst]);
  intros e He; inversion He; eexists; reflexivity.
Qed.


Lemma findOrder_In (id : string) (l : list Order) (o : Order) :
  findOrder id l = Some o -> In o l /\ OrderID o = id.
Proof.
  unfold findOrder. intros H. split.
  - eapply find_some. exact H.
  - apply find_some in H. destruct H as [_ H]. apply String.eqb_eq. exact H.
Qed.

Lemma GetOrdersByResult_noFaults (r : string) (w : World) :
  fst (GetOrdersByResult noFaults r w)
  = OK (rev (filter (fun o => String.eqb (Result_ o) r) (orders (store w)))).
Proof. reflexivity. Qed.

(** X15: after a successful UpdateOrderResult(id, result), on a store whose
    order ids are unique (the unique index on order_id), GetOrdersByResult for
    [result] lists an order with that id, and GetOrdersByResult for any other
    result lists none. *)
Theorem UpdateOrderResult_then_GetOrdersByResult (f : Faults) (w w' : World)
  (orderID result : string) :
  NoDup (map OrderID (orders (store w))) ->
  UpdateOrderResult f orderID result w = (OK tt, w') ->
  (exists l, fst (GetOrdersByResult noFaults result w') = OK l /\
             exists o, In o l /\ OrderID o = orderID) /\
  (forall other, other <> result ->
   exists l, fst (GetOrdersByResult noFaults other w') = OK l /\
             forall o, In o l -> OrderID o <> orderID).
Proof.
  intros Hnd Hu.
  destruct (UpdateOrderResult_found f w w' orderID result Hu) as [o Ho].
  destruct (UpdateOrderResult_store f w w' orderID result o (OK tt) Ho Hu)
    as [_ [Hok _]].
  destruct (Hok eq_refl) as [Hord _]. clear Hok.
  destruct (findOrder_In _ _ _ Ho) as [Hin Hid].
  rewrite !GetOrdersByResult_noFaults. split.
  - eexists. split; [reflexivity|]. rewrite Hord.
    destruct (String.eqb (Result_ o) result) eqn:Er.
    + exists o. split; [|exact Hid]. rewrite <- in_rev, filter_In. auto.
    + exists (set_Result o result). split; [|exact Hid].
      rewrite <- in_rev, filter_In. split.
      * apply in_map_iff. exists o. split; [|exact Hin].
        rewrite Hid, String.eqb_refl. reflexivity.
      * simpl. apply String.eqb_refl.
  - intros other Hne. eexists. split; [reflexivity|].
    intros x Hx Hxid. rewrite <- in_rev, filter_In in Hx. destruct Hx as [Hx Hr].
    apply String.eqb_eq in Hr. rewrite Hord in Hx.
    destruct (String.eqb (Result_ o) result) eqn:Er.
    + apply String.eqb_eq in Er.
      assert (x = o) as ->.
      { symmetry. eapply findOrder_unique; [exact Hnd|exact Hx|]. rewrite Hxid. exact Ho. }
      congruence.
    + apply in_map_iff in Hx. destruct Hx as [y [Hy Hyin]].
      destruct (String.eqb (OrderID y) orderID) eqn:Ey.
      * subst x. simpl in Hr. congruence.
      * subst x. rewrite Hxid, String.eqb_refl in Ey. discriminate Ey.
Qed.

Lemma In_firstn_incl {A} (n : nat) (l : list A) (a : A) : In a (firstn n l) -> In a l.
Proof.
  revert l. induction n as [|n IH]; intros [|b l]; simpl; try tauto.
  intros [H|H]; [left; exact H|right; apply IH; exact H].
Qed.

Lemma In_skipn_incl {A} (n : nat) (l : list A) (a : A) : In a (skipn n l) -> In a l.
Proof.
  revert l. induction n as [|n IH]; intros [|b l]; simpl; try tauto.
  intros H. right. apply IH. exact H.
Qed.

(** X16: OrderAudit().GetByOrderID never changes the process state and fails
    only when the query fails.  Every row it returns is a stored audit row of
    that order; a positive limit returns at most limit rows; with no positive
    limit and no positive offset it returns all of the order's audit rows. *)
Theorem AuditGetByOrderID_page (f : Faults) (orderID : string) (limit offset : Z) (w : World) :
  let '(r, w') := AuditGetByOrderID f orderID limit offset w in
  w' = w /\
  (r = Err "query failed" <-> fail_query f = true) /\
  (forall rows, r = OK rows ->
     (forall a, In a rows -> In a (audits (store w)) /\ AuditOrderID a = orderID) /\
     ((0 < limit)%Z -> (List.length rows <= Z.to_nat limit)%nat) /\
     ((limit <= 0)%Z -> (offset <= 0)%Z ->
        forall a, In a (audits (store w)) -> AuditOrderID a = orderID -> In a rows)).
Proof.
  unfold AuditGetByOrderID, bind, getStore, fail, ret.
  destruct (fail_query f) eqn:Fq; simpl.
  - split; [reflexivity|split; [tauto|intros rows H; discriminate H]].
  - split; [reflexivity|split; [split; [intros H; discriminate H|intros H; discriminate H]|]].
    intros rows H. inversion H as [Hrows]. clear H.
    split; [|split].
    + intros a Ha.
      assert (Hin : In a (rev (filter (fun a => String.eqb (AuditOrderID a) orderID)
                                      (audits (store w))))).
      { destruct (0 <? limit)%Z; destruct (0 <? offset)%Z;
        repeat first [apply In_firstn_incl in Ha | apply In_skipn_incl in Ha]; exact Ha. }
      rewrite <- in_rev, filter_In in Hin. destruct Hin as [H1 H2].
      split; [exact H1|apply String.eqb_eq; exact H2].
    + intros Hl. assert (E : (0 <? limit)%Z = true) by (apply Z.ltb_lt; exact Hl).
      rewrite E. rewrite length_firstn. lia.
    + intros Hl Ho a Ha Hid.
      assert (E1 : (0 <? limit)%Z = false) by (apply Z.ltb_ge; exact Hl).
      assert (E2 : (0 <? offset)%Z = false) by (apply Z.ltb_ge; exact Ho).
      rewrite E1, E2. rewrite <- in_rev, filter_In. split; [exact Ha|].
      apply String.eqb_eq. exact Hid.
Qed.

(** X17: the OrderAudit value accessors.  A value set with SetOldValue or
    SetNewValue is read back by the matching getter, and setting one value
    leaves the other as it was.  With both values set, the change is
    significant exactly when the two strings differ.  The getters read a nil
    value as the empty string but IsSignificantChange does not: setting the old
    value to the empty string of an audit with no new value makes both getters
    return the empty string, yet the change is significant. *)
Theorem audit_value_accessors (oa : OrderAudit) (v v' : string) :
  GetOldValue (SetOldValue oa v) = v /\ GetNewValue (SetNewValue oa v') = v' /\
  NewValue (SetOldValue oa v) = NewValue oa /\ OldValue (SetNewValue oa v') = OldValue oa /\
  IsSignificantChange (SetNewValue (SetOldValue oa v) v') = negb (String.eqb v v') /\
  (NewValue oa = None ->
   GetOldValue (SetOldValue oa "") = GetNewValue (SetOldValue oa "") /\
   IsSignificantChange (SetOldValue oa "") = true).
Proof.
  unfold GetOldValue, GetNewValue, SetOldValue, SetNewValue, IsSignificantChange; simpl.
  split; [reflexivity|split; [reflexivity|split; [reflexivity|split; [reflexivity|split]]]].
  - reflexivity.
  - intros H. rewrite H. split; reflexivity.
Qed.

(* ------------------------------------------------------------------ *)
(** ** Instances of the properties above on concrete stores *)

(** [order_c1], stored with id 1, gets the result Done. *)
Lemma UpdateOrderResult_lookup_witness :
  let u := UpdateOrderResult noFaults "ord-1" OrderResultDone world_c2 in
  findOrder "ord-1" (orders (store world_c2)) = Some (set_ID order_c1 1) /\
  UpdateOrderResult noFaults "ord-1" OrderResultDone world_c2 = (fst u, snd u) /\
  fst u = OK tt /\
  findOrder "ord-1" (orders (store (snd u)))
    = Some (set_Result (set_ID order_c1 1) OrderResultDone).
Proof.
  cbv zeta.
  assert (H1 : findOrder "ord-1" (orders (store world_c2)) = Some (set_ID order_c1 1))
    by reflexivity.
  assert (H2 : UpdateOrderResult noFaults "ord-1" OrderResultDone world_c2
               = (fst (UpdateOrderResult noFaults "ord-1" OrderResultDone world_c2),
                  snd (UpdateOrderResult noFaults "ord-1" OrderResultDone world_c2)))
    by apply surjective_pairing.
  destruct (UpdateOrderResult_lookup noFaults world_c2 _ "ord-1" OrderResultDone _ _ H1 H2)
    as [Hok [Hs _]].
  assert (Hr : fst (UpdateOrderResult noFaults "ord-1" OrderResultDone world_c2) = OK tt)
    by (apply Hok; [reflexivity|discriminate]).
  split; [exact H1|split; [exact H2|split; [exact Hr|apply Hs; exact Hr]]].
Defined.



(** [order_c1] created in the empty store, then given the result Done. *)
Lemma audit_trail_after_create_and_result_witness :
  let w1 := snd (CreateOrder noFaults order_c1 world_c1) in
  CreateOrder noFaults order_c1 world_c1 = (OK tt, w1) /\
  fst (UpdateOrderResult noFaults (OrderID order_c1) OrderResultDone w1) = OK tt.
Proof.
  cbv zeta.
  assert (H : CreateOrder noFaults order_c1 world_c1
              = (OK tt, snd (CreateOrder noFaults order_c1 world_c1)))
    by (vm_compute; reflexivity).
  split; [exact H|].
  exact (proj1 (audit_trail_after_create_and_result order_c1 OrderResultDone world_c1 _ H)).
Defined.

(** UpdateOrder of [order_c1], stored with id 1, with the result Done. *)
Lemma UpdateOrder_audit_rows_witness :
  let u := UpdateOrder noFaults (set_Result (set_ID order_c1 1) OrderResultDone) world_c2 in
  UpdateOrder noFaults (set_Result (set_ID order_c1 1) OrderResultDone) world_c2
    = (fst u, snd u) /\
  fst u = OK tt /\
  exists old rows,
    findOrder "ord-1" (orders (store world_c2)) = Some old /\
    audits (store (snd u)) = (audits (store world_c2) ++ rows)%list /\
    In "result" (map FieldName rows).
Proof.
  cbv zeta.
  assert (H : UpdateOrder noFaults (set_Result (set_ID order_c1 1) OrderResultDone) world_c2
              = (fst (UpdateOrder noFaults (set_Result (set_ID order_c1 1) OrderResultDone) world_c2),
                 snd (UpdateOrder noFaults (set_Result (set_ID order_c1 1) OrderResultDone) world_c2)))
    by apply surjective_pairing.
  assert (Hr : fst (UpdateOrder noFaults (set_Result (set_ID order_c1 1) OrderResultDone) world_c2)
               = OK tt) by (vm_compute; reflexivity).
  split; [exact H|split; [exact Hr|]].
  destruct (proj2 (UpdateOrder_audit_rows noFaults world_c2 _ _ _ H) Hr)
    as (old & rows & Hf & _ & Ha & _ & _ & _ & _ & _ & _ & _ & Hres).
  exists old, rows. split; [exact Hf|split; [exact Ha|]].
  apply Hres. apply findOrder_In in Hf. destruct Hf as [Hin _].
  simpl in Hin. destruct Hin as [<-|[]]. discriminate.
Defined.

(** [order_c1], stored with id 1, is given the result Done and then listed. *)
Lemma UpdateOrderResult_then_GetOrdersByResult_witness :
  let w' := snd (UpdateOrderResult noFaults "ord-1" OrderResultDone world_c2) in
  NoDup (map OrderID (orders (store world_c2))) /\
  UpdateOrderResult noFaults "ord-1" OrderResultDone world_c2 = (OK tt, w') /\
  exists l, fst (GetOrdersByResult noFaults OrderResultDone w') = OK l /\
            exists o, In o l /\ OrderID o = "ord-1".
Proof.
  cbv zeta.
  assert (H1 : NoDup (map OrderID (orders (store world_c2))))
    by (simpl; constructor; [intros []|constructor]).
  assert (H2 : UpdateOrderResult noFaults "ord-1" OrderResultDone world_c2
               = (OK tt, snd (UpdateOrderResult noFaults "ord-1" OrderResultDone world_c2)))
    by (vm_compute; reflexivity).
  split; [exact H1|split; [exact H2|]].
  exact (proj1 (UpdateOrderResult_then_GetOrdersByResult noFaults world_c2 _ "ord-1"
                  OrderResultDone H1 H2)).
Defined.
